(** * theclaude: log scanning, version resolution and file recovery

    A shallow embedding of [theclaude/scanner.py], [theclaude/recovery.py]
    and the records of [theclaude/models.py], followed by the properties
    of the specification that were settled against it.

    Conventions of the embedding.
    - A Python [str] is a [string]: the sequence of the bytes of its UTF-8
      encoding, so that [len(s.encode('utf-8'))] is [String.length s].
    - A [datetime] is its instant on the time line, a [Z]; the order on
      [Z] is the order Python uses between datetimes of one awareness.
    - Library calls are not re-implemented beyond what the code relies on:
      [json.loads] has already been applied to every line of a log,
      [datetime.fromisoformat] and the wall clock are parameters, and the
      file system is an interface with one in-memory instance.
    - The diagnostic sink ([console.print], [Progress]) is left out. *)

From Stdlib Require Import ZArith List String Ascii Bool Arith Lia.
From Stdlib Require Import Permutation Sorted.
Import ListNotations.
Set Warnings "-register-all".
Local Open Scope string_scope.
Local Open Scope list_scope.

(** ** Strings *)

Module Str.

Fixpoint take (n : nat) (s : string) : string :=
  match n, s with
  | S n', String c s' => String c (take n' s')
  | _, _ => EmptyString
  end.

Fixpoint drop (n : nat) (s : string) : string :=
  match n, s with
  | S n', String _ s' => drop n' s'
  | _, _ => s
  end.

(** [s.startswith(p)] *)
Fixpoint startswith (p s : string) : bool :=
  match p, s with
  | EmptyString, _ => true
  | String a p', String b s' => Ascii.eqb a b && startswith p' s'
  | String _ _, EmptyString => false
  end.

(** [p in s] between two strings: [p] occurs in [s]. *)
Fixpoint contains (p s : string) : bool :=
  startswith p s ||
  match s with
  | EmptyString => false
  | String _ s' => contains p s'
  end.

(** [s.split(sep)] for a one-character separator; the result is never
    empty, and consecutive separators give empty fields. *)
Fixpoint split (sep : ascii) (s : string) : list string :=
  match s with
  | EmptyString => [EmptyString]
  | String c s' =>
      if Ascii.eqb c sep then EmptyString :: split sep s'
      else match split sep s' with
           | [] => [String c EmptyString]
           | w :: ws => String c w :: ws
           end
  end.

(** [s.replace(c, r)] for a one-character pattern: every occurrence. *)
Fixpoint replace (c : ascii) (r : string) (s : string) : string :=
  match s with
  | EmptyString => EmptyString
  | String a s' =>
      if Ascii.eqb a c then (r ++ replace c r s')%string else String a (replace c r s')
  end.

(** [s.lstrip(c)] and the number of characters it removes. *)
Fixpoint lstrip (c : ascii) (s : string) : string :=
  match s with
  | String a s' => if Ascii.eqb a c then lstrip c s' else s
  | EmptyString => EmptyString
  end.

(** [s.rfind(c)]: the index of the last occurrence, [None] for [-1]. *)
Fixpoint rfind (c : ascii) (s : string) : option nat :=
  match s with
  | EmptyString => None
  | String a s' =>
      match rfind c s' with
      | Some i => Some (S i)
      | None => if Ascii.eqb a c then Some 0 else None
      end
  end.

Definition mem (s : string) (l : list string) : bool :=
  existsb (String.eqb s) l.

End Str.

(** ** Exceptions *)

Inductive exn_class :=
| JSONDecodeError | KeyError | TypeError | AttributeError | ValueError
| OSError
| Untyped.

Record exn := mkExn { exn_cls : exn_class; exn_msg : string }.

Definition exn_class_eqb (a b : exn_class) : bool :=
  match a, b with
  | JSONDecodeError, JSONDecodeError | KeyError, KeyError
  | TypeError, TypeError | AttributeError, AttributeError
  | ValueError, ValueError | OSError, OSError | Untyped, Untyped => true
  | _, _ => false
  end.

(** The result of running a piece of Python: a value or a raised exception. *)
Inductive outcome (A : Type) :=
| Ret (a : A)
| Raise (e : exn).
Arguments Ret {A} a.
Arguments Raise {A} e.

(** ** pathlib, POSIX flavour *)

Module PathLib.

(** A parsed pure path: the root (the empty string, one slash or two) and
    the remaining segments.  The drive is always empty on POSIX. *)
Record PurePath := mkPath { root : string; segs : list string }.

Definition slash : ascii := "/"%char.

(** [splitroot]: exactly two leading slashes are kept as a root of their
    own, any other number collapses to one. *)
Definition splitroot (part : string) : string * string :=
  match part with
  | String c _ =>
      if Ascii.eqb c slash then
        let stripped := Str.lstrip slash part in
        if Nat.eqb (String.length part - String.length stripped) 2
        then ("//", stripped) else ("/", stripped)
      else ("", part)
  | EmptyString => ("", part)
  end.

Definition keep_seg (x : string) : bool :=
  negb (String.eqb x "") && negb (String.eqb x ".").

(** [Path(s)] for one string argument. *)
Definition Path (s : string) : PurePath :=
  let (r, rel) := splitroot s in
  mkPath r (filter keep_seg (Str.split slash rel)).

Definition empty_path : PurePath := mkPath "" [].

(** [p / q]: a rooted right operand replaces the left one. *)
Definition joinpath (p q : PurePath) : PurePath :=
  if String.eqb (root q) "" then mkPath (root p) (segs p ++ segs q) else q.

(** [Path] applied to several string arguments. *)
Definition Path_of (args : list string) : PurePath :=
  fold_left (fun acc a => joinpath acc (Path a)) args empty_path.

(** [p.parts] *)
Definition parts (p : PurePath) : list string :=
  if String.eqb (root p) "" then segs p else root p :: segs p.

(** [p.name]: the last segment, empty for a bare root or the empty path. *)
Definition name (p : PurePath) : string := last (segs p) "".

(** [p.parent] *)
Definition parent (p : PurePath) : PurePath :=
  mkPath (root p) (removelast (segs p)).

(** [p.suffix] *)
Definition suffix (p : PurePath) : string :=
  let n := name p in
  match Str.rfind "."%char n with
  | Some i =>
      if Nat.ltb 0 i && Nat.ltb i (String.length n - 1) then Str.drop i n else ""
  | None => ""
  end.

(** [p.with_suffix(sfx)].  The checks on the argument are left out: the
    only caller passes [p.suffix + '.backup'], which starts with a dot and
    holds no separator. *)
Definition with_suffix (p : PurePath) (sfx : string) : outcome PurePath :=
  let n := name p in
  if String.eqb n "" then Raise (mkExn ValueError "path has an empty name")
  else
    let old_suffix := suffix p in
    let n' := if String.eqb old_suffix "" then (n ++ sfx)%string
              else (Str.take (String.length n - String.length old_suffix) n
                    ++ sfx)%string in
    Ret (mkPath (root p) (removelast (segs p) ++ [n'])).

Fixpoint segs_eqb (l1 l2 : list string) : bool :=
  match l1, l2 with
  | [], [] => true
  | a :: l1', b :: l2' => String.eqb a b && segs_eqb l1' l2'
  | _, _ => false
  end.

Definition eqb (p q : PurePath) : bool :=
  String.eqb (root p) (root q) && segs_eqb (segs p) (segs q).

(** What pathlib guarantees of the segments of every path it builds. *)
Definition valid (p : PurePath) : Prop :=
  Forall (fun s => keep_seg s = true) (segs p).

(** The path whose string is that of [p] followed by [ext]. *)
Definition add_ext (p : PurePath) (ext : string) : PurePath :=
  mkPath (root p) (removelast (segs p) ++ [(name p ++ ext)%string]).

End PathLib.
Import PathLib.

(** ** Parsed JSON and the dynamic operations the scanner applies to it *)

(** The value [json.loads] returns.  An object is the association list of
    its keys, which are distinct after parsing.  Numbers are kept as
    integers: no operation below distinguishes them from floats. *)
Inductive json :=
| JNull
| JBool (b : bool)
| JNum (n : Z)
| JStr (s : string)
| JList (l : list json)
| JObj (kv : list (string * json)).

Module Py.

Fixpoint assoc (k : string) (kv : list (string * json)) : option json :=
  match kv with
  | [] => None
  | (k', v) :: rest => if String.eqb k k' then Some v else assoc k rest
  end.

(** [v == s] for a string literal [s] *)
Definition str_eq (v : json) (s : string) : bool :=
  match v with
  | JStr s' => String.eqb s' s
  | _ => false
  end.

Definition isinstance_list (v : json) : bool :=
  match v with JList _ => true | _ => false end.

Definition isinstance_dict (v : json) : bool :=
  match v with JObj _ => true | _ => false end.

(** [v.get(k, default)]: only a dict has the method. *)
Definition get (v : json) (k : string) (default : json) : outcome json :=
  match v with
  | JObj kv => Ret (match assoc k kv with Some x => x | None => default end)
  | _ => Raise (mkExn AttributeError "object has no attribute 'get'")
  end.

(** [k in v]: key membership for a dict, element membership for a list,
    substring test for a str, [TypeError] for anything else. *)
Definition contains (k : string) (v : json) : outcome bool :=
  match v with
  | JObj kv => Ret (match assoc k kv with Some _ => true | None => false end)
  | JList l => Ret (existsb (fun x => str_eq x k) l)
  | JStr s => Ret (Str.contains k s)
  | _ => Raise (mkExn TypeError "argument is not iterable")
  end.

(** [v[k]] for a string key. *)
Definition getitem (v : json) (k : string) : outcome json :=
  match v with
  | JObj kv =>
      match assoc k kv with
      | Some x => Ret x
      | None => Raise (mkExn KeyError k)
      end
  | JList _ => Raise (mkExn TypeError "list indices must be integers")
  | JStr _ => Raise (mkExn TypeError "string indices must be integers")
  | _ => Raise (mkExn TypeError "object is not subscriptable")
  end.

(** [len(v.encode('utf-8'))]: only a str has the method. *)
Definition encode_len (v : json) : outcome (string * nat) :=
  match v with
  | JStr s => Ret (s, String.length s)
  | _ => Raise (mkExn AttributeError "object has no attribute 'encode'")
  end.

End Py.

(** ** models.py *)

Inductive operation := Write | Read | Edit | MultiEdit.

(** [FileRecord].  [_version_count] is the attribute that
    [scan_project_for_files] attaches to the latest version of a file;
    [None] is a record that does not have it. *)
Record FileRecord := mkFileRecord {
  file_path : string;
  content : string;
  operation_type : operation;
  timestamp : Z;
  conversation_id : string;
  project_name : string;
  size_bytes : nat;
  _version_count : option nat
}.

Definition set_version_count (r : FileRecord) (n : nat) : FileRecord :=
  mkFileRecord (file_path r) (content r) (operation_type r) (timestamp r)
    (conversation_id r) (project_name r) (size_bytes r) (Some n).

Record RecoveryResult := mkRecoveryResult {
  file_record : FileRecord;
  success : bool;
  target_path : PurePath;
  error_message : option string;
  was_existing : bool;
  backup_created : bool
}.

(** ** scanner.py *)

(** A line of a log after [json.loads]: the value it parsed to, or the
    fact that it raised [JSONDecodeError]. *)
Inductive line :=
| Malformed
| Parsed (entry : json).

(** A conversation log: the name of its directory, its base name without
    the extension, and its lines in order. *)
Record jsonl_file := mkJsonl {
  parent_name : string;
  stem : string;
  lines : list line
}.

(** The generator monad of [_scan_conversation_for_files]: a computation
    yields records, ends with a value or an exception, and counts the
    readings it took of the wall clock. *)
Definition Gen (A : Type) : Type := nat -> list FileRecord * outcome A * nat.

Definition gret {A} (a : A) : Gen A := fun n => ([], Ret a, n).

Definition gbind {A B} (m : Gen A) (k : A -> Gen B) : Gen B :=
  fun n =>
    match m n with
    | (ys, Ret a, n') =>
        match k a n' with (ys', r, n'') => (ys ++ ys', r, n'') end
    | (ys, Raise e, n') => (ys, Raise e, n')
    end.

Definition glift {A} (o : outcome A) : Gen A := fun n => ([], o, n).

Definition graise {A} (e : exn) : Gen A := glift (Raise e).

Definition gyield (r : FileRecord) : Gen unit := fun n => ([r], Ret tt, n).

(** [try: m except ... as e: h e] *)
Definition gexcept {A} (m : Gen A) (h : exn -> Gen A) : Gen A :=
  fun n =>
    match m n with
    | (ys, Raise e, n') =>
        match h e n' with (ys', r, n'') => (ys ++ ys', r, n'') end
    | r => r
    end.

Declare Scope gen_scope.
Delimit Scope gen_scope with gen.
Notation "x <- m ;; k" := (gbind m (fun x => k))
  (at level 61, m at next level, right associativity) : gen_scope.
Notation "m ;;; k" := (gbind m (fun _ => k))
  (at level 61, right associativity) : gen_scope.

(** [for x in xs: body x] *)
Fixpoint gfor {A} (xs : list A) (body : A -> Gen unit) : Gen unit :=
  match xs with
  | [] => gret tt
  | x :: rest => gbind (body x) (fun _ => gfor rest body)
  end.

(** The [except] clause of the scanning loop catches these classes only. *)
Definition caught (e : exn) : bool :=
  match exn_cls e with
  | JSONDecodeError | KeyError | TypeError => true
  | _ => false
  end.

(** The record built at a [FileRecord(...)] call site has the declared
    type [str] in [file_path] only if the log holds a string there; the
    constructor itself does not check.  A log that holds another value is
    outside the typed record of this embedding: the scan of its file
    stops there with the class [Untyped], which is not a Python exception
    and which the [except] clause of the loop over the lines does not
    catch.  No property below is about such a log. *)
Definition untyped_path : exn := mkExn Untyped "file_path is not a str".

Definition as_str (v : json) : outcome string :=
  match v with
  | JStr s => Ret s
  | _ => Raise untyped_path
  end.

Definition json_loads (l : line) : outcome json :=
  match l with
  | Malformed => Raise (mkExn JSONDecodeError "Expecting value")
  | Parsed entry => Ret entry
  end.

(** [_extract_project_name] *)
Definition _extract_project_name (directory_name : string) : string :=
  if Str.startswith "-" directory_name then
    let parts := Str.split "-"%char directory_name in
    if Nat.ltb 1 (List.length parts) then last parts "" else directory_name
  else directory_name.

Section Scanner.

(** [datetime.fromisoformat]: the instant of a string it accepts. *)
Variable fromisoformat : string -> option Z.

(** [datetime.now()]: the k-th reading of the wall clock in a run. *)
Variable now : nat -> Z.

Definition datetime_now : Gen Z := fun n => ([], Ret (now n), S n).

(** [_parse_timestamp]: a value without [replace] raises [AttributeError]
    and a string that is not ISO raises [ValueError]; both fall back to
    the clock. *)
Definition _parse_timestamp (timestamp_str : json) : Gen Z :=
  match timestamp_str with
  | JStr s =>
      match fromisoformat (Str.replace "Z"%char "+00:00" s) with
      | Some t => gret t
      | None => datetime_now
      end
  | _ => datetime_now
  end.

Local Open Scope gen_scope.

(** [_extract_file_from_tool_use] *)
Definition _extract_file_from_tool_use
    (tool_use : json) (timestamp : Z) (conversation_id project_name : string)
  : outcome (option FileRecord) :=
  match Py.get tool_use "name" (JStr "") with
  | Raise e => Raise e
  | Ret tool_name =>
  match Py.get tool_use "input" (JObj []) with
  | Raise e => Raise e
  | Ret tool_input =>
      let and_in (b : bool) (k : string) : outcome bool :=
        if b then Py.contains k tool_input else Ret false in
      match and_in (Py.str_eq tool_name "Write") "file_path" with
      | Raise e => Raise e
      | Ret b1 =>
      match and_in b1 "content" with
      | Raise e => Raise e
      | Ret true =>
          match Py.getitem tool_input "file_path" with
          | Raise e => Raise e
          | Ret p =>
          match Py.getitem tool_input "content" with
          | Raise e => Raise e
          | Ret c =>
          match Py.encode_len c with
          | Raise e => Raise e
          | Ret (c_str, size) =>
          match as_str p with
          | Raise e => Raise e
          | Ret p_str =>
              Ret (Some (mkFileRecord p_str c_str Write timestamp
                           conversation_id project_name size None))
          end end end end
      | Ret false =>
          match and_in (Py.str_eq tool_name "Edit") "file_path" with
          | Raise e => Raise e
          | Ret true => Ret None
          | Ret false =>
              match and_in (Py.str_eq tool_name "MultiEdit") "file_path" with
              | Raise e => Raise e
              | Ret _ => Ret None
              end
          end
      end end
  end end.

(** The body of the [try] of the scanning loop, after [json.loads]. *)
Definition scan_entry (entry : json) (conversation_id project_name : string)
  : Gen unit :=
  ty <- glift (Py.get entry "type" JNull) ;;
  has_message <- (if Py.str_eq ty "assistant"
                  then glift (Py.contains "message" entry) else gret false) ;;
  (if has_message : bool then
     message <- glift (Py.getitem entry "message") ;;
     has_content <- glift (Py.contains "content" message) ;;
     is_list <- (if has_content : bool
                 then c <- glift (Py.getitem message "content") ;;
                      gret (Py.isinstance_list c)
                 else gret false) ;;
     if is_list : bool then
       ts <- glift (Py.get entry "timestamp" (JStr "")) ;;
       timestamp <- _parse_timestamp ts ;;
       items <- glift (Py.getitem message "content") ;;
       gfor (match items with JList l => l | _ => [] end)
         (fun content_item =>
            ity <- glift (Py.get content_item "type" JNull) ;;
            if Py.str_eq ity "tool_use" then
              fr <- glift (_extract_file_from_tool_use content_item timestamp
                             conversation_id project_name) ;;
              match fr with
              | Some r => gyield r
              | None => gret tt
              end
            else gret tt)
     else gret tt
   else gret tt) ;;;
  ty' <- glift (Py.get entry "type" JNull) ;;
  has_result <- (if Py.str_eq ty' "user"
                 then glift (Py.contains "toolUseResult" entry)
                 else gret false) ;;
  if has_result : bool then
    result <- glift (Py.getitem entry "toolUseResult") ;;
    is_text <- (if Py.isinstance_dict result
                then rty <- glift (Py.get result "type" JNull) ;;
                     gret (Py.str_eq rty "text")
                else gret false) ;;
    if is_text : bool then
      file_info <- glift (Py.get result "file" (JObj [])) ;;
      has_path <- glift (Py.contains "filePath" file_info) ;;
      has_both <- (if has_path : bool
                   then glift (Py.contains "content" file_info)
                   else gret false) ;;
      if has_both : bool then
        ts <- glift (Py.get entry "timestamp" (JStr "")) ;;
        timestamp <- _parse_timestamp ts ;;
        p <- glift (Py.getitem file_info "filePath") ;;
        c <- glift (Py.getitem file_info "content") ;;
        cs <- glift (Py.encode_len c) ;;
        p_str <- glift (as_str p) ;;
        gyield (mkFileRecord p_str (fst cs) Read timestamp
                  conversation_id project_name (snd cs) None)
      else gret tt
    else gret tt
  else gret tt.

(** One iteration of the loop over the lines: the [try] and its
    [except (json.JSONDecodeError, KeyError, TypeError): continue]. *)
Definition scan_line (conversation_id project_name : string) (l : line)
  : Gen unit :=
  gexcept
    (entry <- glift (json_loads l) ;;
     scan_entry entry conversation_id project_name)
    (fun e => if caught e then gret tt else graise e).

(** [_scan_conversation_for_files] *)
Definition _scan_conversation_for_files (jsonl : jsonl_file) : Gen unit :=
  let project_name := _extract_project_name (parent_name jsonl) in
  let conversation_id := stem jsonl in
  gfor (lines jsonl) (scan_line conversation_id project_name).

(** The first loop of [scan_project_for_files]:
    [list(self._scan_conversation_for_files(conv_file))] gives the records
    of a file whose scan ends normally and raises otherwise, and
    [except Exception] then leaves [all_files] as it was. *)
Fixpoint collect_files (conversation_files : list jsonl_file)
    (all_files : list FileRecord) (n : nat) : list FileRecord * nat :=
  match conversation_files with
  | [] => (all_files, n)
  | conv_file :: rest =>
      match _scan_conversation_for_files conv_file n with
      | (files, Ret _, n') => collect_files rest (all_files ++ files) n'
      | (_, Raise _, n') => collect_files rest all_files n'
      end
  end.

End Scanner.

(** *** Version resolution: the second half of [scan_project_for_files] *)

(** [file_versions[file_record.file_path].append(file_record)] on the
    [defaultdict(list)], whose keys keep the order of first insertion. *)
Fixpoint versions_append (file_versions : list (string * list FileRecord))
    (r : FileRecord) : list (string * list FileRecord) :=
  match file_versions with
  | [] => [(file_path r, [r])]
  | (p, versions) :: rest =>
      if String.eqb p (file_path r) then (p, versions ++ [r]) :: rest
      else (p, versions) :: versions_append rest r
  end.

Definition group_by_path (all_files : list FileRecord)
  : list (string * list FileRecord) :=
  fold_left versions_append all_files [].

(** [sort(key=lambda f: f.timestamp, reverse=True)]: Python's sort is
    stable, also when reversed, so records of equal timestamp keep their
    order.  [insert_desc] puts a record after the later ones only. *)
Fixpoint insert_desc (x : FileRecord) (l : list FileRecord) : list FileRecord :=
  match l with
  | [] => [x]
  | y :: l' =>
      if (timestamp x <? timestamp y)%Z then y :: insert_desc x l' else x :: l
  end.

Definition sort_desc (l : list FileRecord) : list FileRecord :=
  fold_right insert_desc [] l.

(** The body of the loop over [file_versions.items()].  A group is never
    empty, so that [versions[0]] cannot raise. *)
Definition latest_version (versions : list FileRecord) : list FileRecord :=
  match sort_desc versions with
  | [] => []
  | latest :: _ =>
      [if Nat.ltb 1 (List.length versions)
       then set_version_count latest (List.length versions) else latest]
  end.

Definition resolve_versions (all_files : list FileRecord) : list FileRecord :=
  sort_desc (flat_map (fun g => latest_version (snd g)) (group_by_path all_files)).

(** [scan_project_for_files], on the logs that [glob] returned. *)
Definition scan_project_for_files (fromisoformat : string -> option Z)
    (now : nat -> Z) (conversation_files : list jsonl_file) : list FileRecord :=
  resolve_versions (fst (collect_files fromisoformat now conversation_files [] 0)).

(** ** recovery.py *)

(** The calls the recovery engine makes on the file system.  A call that
    raises returns the exception; what it changed before raising stays
    changed.  [exists] answers without raising, as does [Confirm.ask]:
    both stand outside the [try] of [recover_file]. *)
Class FileSystem (F : Type) := {
  (** [p.exists()] *)
  path_exists : PurePath -> F -> bool;
  (** [p.mkdir(parents=True, exist_ok=True)] *)
  mkdir_parents : PurePath -> F -> option exn * F;
  (** [shutil.copy2(src, dst)] *)
  copy2 : PurePath -> PurePath -> F -> option exn * F;
  (** [with open(p, 'w', encoding='utf-8') as f: f.write(text)] *)
  write_text : PurePath -> string -> F -> option exn * F
}.

(** What a recovery runs against: the file system and the number of
    questions [Confirm.ask] has put to the user so far. *)
Record World (F : Type) := mkWorld { fs : F; asked : nat }.
Arguments mkWorld {F} fs asked.
Arguments fs {F} w.
Arguments asked {F} w.

(** [_make_relative_path]: the loop over [enumerate(parts)]. *)
Definition project_indicators : list string :=
  ["src"; "lib"; "app"; ".claude"; "tests"; "docs"].

Fixpoint find_indicator (i : nat) (ps : list string) : option nat :=
  match ps with
  | [] => None
  | part :: rest =>
      if Str.mem part project_indicators && Nat.ltb 0 i then Some i
      else find_indicator (S i) rest
  end.

Definition _make_relative_path (file_path : string) : PurePath :=
  let path := Path file_path in
  let parts := parts path in
  match find_indicator 0 parts with
  | Some i => Path_of (skipn (i - 1) parts)
  | None => Path (name path)
  end.

(** The target path that [recover_files] and [preview_recovery] pass on. *)
Definition batch_target (target_dir : option PurePath)
    (preserve_structure : bool) (file_record : FileRecord) : option PurePath :=
  match target_dir with
  | Some dir =>
      if preserve_structure
      then Some (joinpath dir (_make_relative_path (file_path file_record)))
      else Some (joinpath dir (Path (name (Path (file_path file_record)))))
  | None => None
  end.

(** The target an outcome reports: the one that was passed, or the
    original path of the record. *)
Definition final_target (file_record : FileRecord)
    (target_path : option PurePath) : PurePath :=
  match target_path with
  | Some p => p
  | None => Path (file_path file_record)
  end.

Section Recovery.

Context {F : Type} `{FileSystem F}.

(** [self.create_backups] *)
Variable create_backups : bool.

(** The answers of the user: [answers k] is the reply to the k-th
    question of [Confirm.ask]. *)
Variable answers : nat -> bool.

Definition confirm_ask (w : World F) : bool * World F :=
  (answers (asked w), mkWorld (fs w) (S (asked w))).

(** The backup step inside the [try]: the exception if one is raised,
    the value of [backup_created] at that point, and the file system. *)
Definition backup_step (target_path : PurePath) (was_existing : bool) (f : F)
  : option exn * bool * F :=
  if was_existing && create_backups then
    match with_suffix target_path (suffix target_path ++ ".backup")%string with
    | Raise e => (Some e, false, f)
    | Ret backup_path =>
        match copy2 target_path backup_path f with
        | (Some e, f') => (Some e, false, f')
        | (None, f') => (None, true, f')
        end
    end
  else (None, false, f).

Definition failed (file_record : FileRecord) (target_path : PurePath)
    (e : exn) (was_existing backup_created : bool) : RecoveryResult :=
  mkRecoveryResult file_record false target_path (Some (exn_msg e))
    was_existing backup_created.

(** The body of the [try] of [recover_file]: the exception if one is
    raised, the value of [backup_created] at that point, and the file
    system. *)
Definition try_block (target_path : PurePath) (was_existing : bool)
    (text : string) (f : F) : option exn * bool * F :=
  match mkdir_parents (parent target_path) f with
  | (Some e, f2) => (Some e, false, f2)
  | (None, f2) =>
      match backup_step target_path was_existing f2 with
      | (Some e, backup_created, f3) => (Some e, backup_created, f3)
      | (None, backup_created, f3) =>
          match write_text target_path text f3 with
          | (Some e, f4) => (Some e, backup_created, f4)
          | (None, f4) => (None, backup_created, f4)
          end
      end
  end.

(** The gate before the [try]: whether the user was asked and declined. *)
Definition confirm_gate (was_existing force : bool) (w : World F)
  : bool * World F :=
  if was_existing && negb force
  then let '(a, w') := confirm_ask w in (negb a, w')
  else (false, w).

(** [recover_file] *)
Definition recover_file (file_record : FileRecord)
    (target_path : option PurePath) (force : bool) (w : World F)
  : RecoveryResult * World F :=
  let target_path :=
    match target_path with
    | None => Path (file_path file_record)
    | Some p => p
    end in
  let was_existing := path_exists target_path (fs w) in
  let '(declined, w1) := confirm_gate was_existing force w in
  if declined : bool then
    (mkRecoveryResult file_record false target_path
       (Some "User cancelled overwrite") true false, w1)
  else
    match try_block target_path was_existing (content file_record) (fs w1) with
    | (Some e, backup_created, f') =>
        (failed file_record target_path e was_existing backup_created,
         mkWorld f' (asked w1))
    | (None, backup_created, f') =>
        (mkRecoveryResult file_record true target_path None
           was_existing backup_created,
         mkWorld f' (asked w1))
    end.

(** [recover_files] *)
Fixpoint recover_files (file_records : list FileRecord)
    (target_dir : option PurePath) (preserve_structure force : bool)
    (w : World F) : list RecoveryResult * World F :=
  match file_records with
  | [] => ([], w)
  | file_record :: rest =>
      let target_path := batch_target target_dir preserve_structure file_record in
      let '(result, w1) := recover_file file_record target_path force w in
      let '(results, w2) := recover_files rest target_dir preserve_structure force w1 in
      (result :: results, w2)
  end.

(** One line of the preview: whether the target exists (OVERWRITE) or not
    (NEW), the target, and the size of the record. *)
Record preview_line := mkPreviewLine {
  overwrite : bool;
  preview_target : PurePath;
  preview_size : nat
}.

(** What [preview_recovery] prints: its lines, the number of files and
    the total size in bytes (before it is formatted). *)
Record preview_report := mkPreview {
  preview_lines : list preview_line;
  total_files : nat;
  total_size : nat
}.

Fixpoint preview_loop (file_records : list FileRecord)
    (target_dir : option PurePath) (preserve_structure : bool)
    (w : World F) : list preview_line * World F :=
  match file_records with
  | [] => ([], w)
  | file_record :: rest =>
      let target_path :=
        match batch_target target_dir preserve_structure file_record with
        | Some p => p
        | None => Path (file_path file_record)
        end in
      let status := path_exists target_path (fs w) in
      let '(ls, w') := preview_loop rest target_dir preserve_structure w in
      (mkPreviewLine status target_path (size_bytes file_record) :: ls, w')
  end.

(** [preview_recovery] *)
Definition preview_recovery (file_records : list FileRecord)
    (target_dir : option PurePath) (preserve_structure : bool)
    (w : World F) : preview_report * World F :=
  let '(ls, w') := preview_loop file_records target_dir preserve_structure w in
  (mkPreview ls (List.length file_records)
     (fold_right (fun r acc => size_bytes r + acc) 0 file_records), w').

End Recovery.

(** *** An in-memory file system *)

Module MemFS.

Inductive node :=
| File (data : string)
| Dir.

(** The entries, by path.  A path without segments is a root or the
    current directory, which exists. *)
Definition t : Type := PurePath -> option node.

Definition empty : t := fun _ => None.

Definition lookup (f : t) (p : PurePath) : option node :=
  match segs p with
  | [] => Some Dir
  | _ => f p
  end.

Definition update (f : t) (p : PurePath) (n : node) : t :=
  fun q => if PathLib.eqb q p then Some n else f q.

Definition exists_ (p : PurePath) (f : t) : bool :=
  match lookup f p with Some _ => true | None => false end.

Definition os_error (msg : string) : exn := mkExn OSError msg.

(** [mkdir(parents=True, exist_ok=True)], from the outermost ancestor
    inwards: a directory on the way is kept, a missing one is made, and a
    regular file on the way raises. *)
Fixpoint mkdir_walk (r : string) (done todo : list string) (f : t)
  : option exn * t :=
  match todo with
  | [] => (None, f)
  | s :: todo' =>
      let p := mkPath r (done ++ [s]) in
      match lookup f p with
      | Some Dir => mkdir_walk r (done ++ [s]) todo' f
      | Some (File _) => (Some (os_error "File exists"), f)
      | None => mkdir_walk r (done ++ [s]) todo' (update f p Dir)
      end
  end.

Definition mkdir (d : PurePath) (f : t) : option exn * t :=
  mkdir_walk (root d) [] (segs d) f.

(** Writing a regular file at [p]: [p] is not a directory and its parent
    is one. *)
Definition put_file (p : PurePath) (data : string) (f : t) : option exn * t :=
  match lookup f p with
  | Some Dir => (Some (os_error "Is a directory"), f)
  | _ =>
      match lookup f (parent p) with
      | Some Dir => (None, update f p (File data))
      | Some (File _) => (Some (os_error "Not a directory"), f)
      | None => (Some (os_error "No such file or directory"), f)
      end
  end.

(** [shutil.copy2]: the source is a regular file; a destination that is
    a directory receives the copy under the base name of the source. *)
Definition copy (src dst : PurePath) (f : t) : option exn * t :=
  match lookup f src with
  | Some (File data) =>
      let dst' := match lookup f dst with
                  | Some Dir => joinpath dst (Path (name src))
                  | _ => dst
                  end in
      put_file dst' data f
  | Some Dir => (Some (os_error "Is a directory"), f)
  | None => (Some (os_error "No such file or directory"), f)
  end.


(** No regular file stands where a directory of the target has to be. *)
Definition no_file_above (f : t) (p : PurePath) : Prop :=
  forall k data, k < List.length (segs (parent p)) ->
    lookup f (mkPath (root p) (firstn (S k) (segs (parent p))))
      <> Some (File data).

#[global] Instance file_system : FileSystem t := {
  path_exists := exists_;
  mkdir_parents := mkdir;
  copy2 := copy;
  write_text := put_file
}.

End MemFS.

(** * More of the code *)

(** ** models.py: the computed properties of [FileRecord] *)

Module Models.

(** [sep.join(l)] *)
Fixpoint join (sep : string) (l : list string) : string :=
  match l with
  | [] => ""
  | [x] => x
  | x :: rest => (x ++ sep ++ join sep rest)%string
  end.

(** [str(p)]: the root followed by the segments joined by slashes, and a
    dot for the empty path. *)
Definition str_of (p : PurePath) : string :=
  match segs p with
  | [] => if String.eqb (root p) "" then "." else root p
  | _ => (root p ++ join "/" (segs p))%string
  end.

(** [file_name] *)
Definition file_name (r : FileRecord) : string := name (Path (file_path r)).

(** The markers of [relative_path], which are not those of
    [_make_relative_path]. *)
Definition display_indicators : list string :=
  ["src"; "lib"; "app"; "components"; "pages"; "api"; "utils"; "tests"; "docs"].

Fixpoint find_display_indicator (i : nat) (ps : list string) : option nat :=
  match ps with
  | [] => None
  | part :: rest =>
      if Str.mem part display_indicators && Nat.ltb 0 i then Some i
      else find_display_indicator (S i) rest
  end.

(** [relative_path]: from the first marker on, else the last three parts
    of a path of more than three, else the last two of a path of more
    than one, else the name. *)
Definition relative_path (r : FileRecord) : string :=
  let path := Path (file_path r) in
  let ps := parts path in
  match find_display_indicator 0 ps with
  | Some i => str_of (Path_of (skipn i ps))
  | None =>
      if Nat.ltb 3 (List.length ps)
      then str_of (Path_of (skipn (List.length ps - 3) ps))
      else if Nat.ltb 1 (List.length ps)
      then str_of (Path_of (skipn (List.length ps - 2) ps))
      else name path
  end.

(** [size_color] *)
Definition size_color (r : FileRecord) : string :=
  if Nat.ltb (100 * 1024) (size_bytes r) then "red"
  else if Nat.ltb (10 * 1024) (size_bytes r) then "yellow"
  else "green".

(** [c.lower()] on the letters A to Z; every other byte is kept.  (A
    [str] of Python also lowers letters outside ASCII, which the byte
    strings of the embedding do not follow.) *)
Definition lower_ascii (c : ascii) : ascii :=
  let n := nat_of_ascii c in
  if Nat.leb 65 n && Nat.leb n 90 then ascii_of_nat (n + 32) else c.

Fixpoint lower (s : string) : string :=
  match s with
  | EmptyString => EmptyString
  | String c s' => String (lower_ascii c) (lower s')
  end.

(** [file_extension] *)
Definition file_extension (r : FileRecord) : string :=
  lower (suffix (Path (file_path r))).

Definition type_map : list (string * string) :=
  [(".py", "Python"); (".js", "JavaScript"); (".ts", "TypeScript");
   (".jsx", "React"); (".tsx", "React TS"); (".html", "HTML");
   (".css", "CSS"); (".scss", "SCSS"); (".json", "JSON");
   (".yaml", "YAML"); (".yml", "YAML"); (".toml", "TOML");
   (".md", "Markdown"); (".txt", "Text"); (".sql", "SQL");
   (".sh", "Shell"); (".dockerfile", "Docker"); (".rs", "Rust");
   (".go", "Go"); (".java", "Java"); (".php", "PHP"); (".rb", "Ruby");
   (".c", "C"); (".cpp", "C++"); (".h", "Header")].

Fixpoint dict_get (k : string) (d : list (string * string)) (default : string)
  : string :=
  match d with
  | [] => default
  | (k', v) :: rest => if String.eqb k k' then v else dict_get k rest default
  end.

(** [file_type] *)
Definition file_type (r : FileRecord) : string :=
  dict_get (file_extension r) type_map "Other".

Definition newline : ascii := ascii_of_nat 10.

(** [preview_lines] *)
Definition preview_lines (r : FileRecord) : list string :=
  firstn 5 (Str.split newline (content r)).

(** [line_count] *)
Definition line_count (r : FileRecord) : nat :=
  List.length (Str.split newline (content r)).

(** [ProjectSummary]; [file_types] is the [Counter], an insertion-ordered
    dictionary from type to count. *)
Record ProjectSummary := mkProjectSummary {
  summary_name : string;
  summary_path : PurePath;
  conversation_count : nat;
  file_count : nat;
  total_size_bytes : nat;
  latest_activity : option Z;
  file_types : list (string * nat)
}.

End Models.

(** ** scanner.py: [get_project_summary] *)

(** [counter[k] += 1] on a [Counter]: a missing key counts as 0 and is
    inserted last. *)
Fixpoint counter_incr (counter : list (string * nat)) (k : string)
  : list (string * nat) :=
  match counter with
  | [] => [(k, 1)]
  | (k', n) :: rest =>
      if String.eqb k' k then (k', S n) :: rest
      else (k', n) :: counter_incr rest k
  end.

(** The local variables of [get_project_summary]. *)
Record summary_state := mkSummaryState {
  st_file_count : nat;
  st_total_size : nat;
  st_latest_activity : option Z;
  st_file_types : list (string * nat)
}.

(** The body of the loop over the records of one file. *)
Definition summary_step (st : summary_state) (file_record : FileRecord)
  : summary_state :=
  mkSummaryState
    (st_file_count st)
    (st_total_size st + size_bytes file_record)
    (match st_latest_activity st with
     | None => Some (timestamp file_record)
     | Some latest =>
         if (latest <? timestamp file_record)%Z
         then Some (timestamp file_record) else Some latest
     end)
    (counter_incr (st_file_types st) (Models.file_type file_record)).

(** The loop over the conversation files: a file whose scan raises is
    left out by [except Exception: continue], before anything of it was
    counted. *)
Fixpoint summary_loop (fromisoformat : string -> option Z) (now : nat -> Z)
    (conversation_files : list jsonl_file) (st : summary_state) (n : nat)
  : summary_state * nat :=
  match conversation_files with
  | [] => (st, n)
  | conv_file :: rest =>
      match _scan_conversation_for_files fromisoformat now conv_file n with
      | (files, Ret _, n') =>
          let st1 := mkSummaryState (st_file_count st + List.length files)
                       (st_total_size st) (st_latest_activity st)
                       (st_file_types st) in
          summary_loop fromisoformat now rest (fold_left summary_step files st1) n'
      | (_, Raise _, n') => summary_loop fromisoformat now rest st n'
      end
  end.

(** [get_project_summary], on the logs that [glob] returned. *)
Definition get_project_summary (fromisoformat : string -> option Z)
    (now : nat -> Z) (project_path : PurePath)
    (conversation_files : list jsonl_file) : Models.ProjectSummary :=
  let st := fst (summary_loop fromisoformat now conversation_files
                   (mkSummaryState 0 0 None []) 0) in
  Models.mkProjectSummary
    (_extract_project_name (name project_path))
    project_path
    (List.length conversation_files)
    (st_file_count st) (st_total_size st) (st_latest_activity st)
    (st_file_types st).

(** * The vocabulary of the properties *)


(** The records of [l] whose path is [p], in the order of [l]. *)
Definition versions_of (p : string) (l : list FileRecord) : list FileRecord :=
  filter (fun r => String.eqb p (file_path r)) l.

(** The record that stands for a group of [n] versions. *)
Definition canonical (latest : FileRecord) (n : nat) : FileRecord :=
  if Nat.ltb 1 n then set_version_count latest n else latest.

(** What the dictionary [file_versions] holds after the records of [l]. *)
Definition grouped (l : list FileRecord) (g : list (string * list FileRecord))
  : Prop :=
  NoDup (map fst g) /\
  (forall p vs, In (p, vs) g -> vs = versions_of p l /\ vs <> []) /\
  (forall r, In r l -> In (file_path r) (map fst g)).



(** The two shapes of record the scanner reads, with a string timestamp:
    an assistant message with one [Write] tool use, and a user message
    with the text result of a read. *)
Definition write_entry (ts path text : string) : json :=
  JObj [("type", JStr "assistant"); ("timestamp", JStr ts);
        ("message",
         JObj [("role", JStr "assistant");
               ("content",
                JList [JObj [("type", JStr "tool_use"); ("name", JStr "Write");
                             ("input", JObj [("file_path", JStr path);
                                             ("content", JStr text)])]])])].

Definition read_entry (ts path text : string) : json :=
  JObj [("type", JStr "user"); ("timestamp", JStr ts);
        ("toolUseResult",
         JObj [("type", JStr "text");
               ("file", JObj [("filePath", JStr path);
                              ("content", JStr text)])])].

(** ** Concrete logs and worlds *)

Module Example.

(** A [fromisoformat] that knows two instants, one second apart. *)
Definition fromisoformat (s : string) : option Z :=
  if String.eqb s "2024-05-01T10:00:00+00:00" then Some 1000%Z
  else if String.eqb s "2024-05-01T10:00:01+00:00" then Some 1001%Z
  else None.

(** A clock that starts at [t0] and advances by one at each reading. *)
Definition clock (t0 : Z) (k : nat) : Z := (t0 + Z.of_nat k)%Z.

Definition x_py : string := "/a/b/src/x.py".

Definition written : line :=
  Parsed (write_entry "2024-05-01T10:00:00Z" x_py "print('hi')").

Definition read_back : line :=
  Parsed (read_entry "2024-05-01T10:00:01Z" x_py "print('hello')").


Definition log : jsonl_file :=
  mkJsonl "-a-b" "c0ffee" [written; read_back].

(** The same log with a line in between that is valid JSON but not an
    object. *)
Definition log_with_list_line : jsonl_file :=
  mkJsonl "-a-b" "c0ffee" [written; Parsed (JList []); read_back].


Definition write_record : FileRecord :=
  mkFileRecord x_py "print('hi')" Write 1000 "c0ffee" "b" 11 None.

Definition read_record : FileRecord :=
  mkFileRecord x_py "print('hello')" Read 1001 "c0ffee" "b" 14 None.

Definition resolved : FileRecord := set_version_count read_record 2.

Definition out : PurePath := Path "/out".

(** A disk with the directory [/out] and one file in it. *)
Definition disk_flat : MemFS.t :=
  MemFS.update (MemFS.update MemFS.empty (Path "/out") MemFS.Dir)
    (Path "/out/x.py") (MemFS.File "old").

Definition stray : FileRecord :=
  mkFileRecord "/tmp/work/x.py" "new" Write 7 "c" "p" 3 None.

Definition yes (k : nat) : bool := true.
Definition no (k : nat) : bool := false.

Definition rec_c : FileRecord :=
  mkFileRecord "/p/notes.txt" "c" Write 3 "c" "p" 1 None.


End Example.

(** What every record that the scan of one conversation log yields has:
    a size that is the byte length of the content, the operation Write or
    Read, the names of the log, and no version count. *)
Definition scanned_from (conversation project : string)
    (r : FileRecord) : Prop :=
  size_bytes r = String.length (content r) /\
  (operation_type r = Write \/ operation_type r = Read) /\
  conversation_id r = conversation /\
  project_name r = project /\
  _version_count r = None.

(** Every record a computation yields satisfies [P], whatever the clock
    showed before. *)
Definition yields_all {A} (P : FileRecord -> Prop) (m : Gen A) : Prop :=
  forall n, Forall P (fst (fst (m n))).

(** The number of versions a resolved record stands for: its version
    count, or one when it has none. *)
Definition versions_counted (r : FileRecord) : nat :=
  match _version_count r with
  | Some n => n
  | None => 1
  end.

(** The number of occurrences of a character in a string. *)
Fixpoint count (c : ascii) (s : string) : nat :=
  match s with
  | EmptyString => 0
  | String a s' => (if Ascii.eqb a c then 1 else 0) + count c s'
  end.

(** The state of [get_project_summary] with [k] more files counted. *)
Definition counted (st : summary_state) (k : nat) : summary_state :=
  mkSummaryState (st_file_count st + k) (st_total_size st)
    (st_latest_activity st) (st_file_types st).

(** What pathlib guarantees of every path it parses: the root is empty,
    one slash or two, and no segment is empty, a dot, or holds a slash. *)
Definition seg_ok (x : string) : Prop :=
  keep_seg x = true /\ Str.rfind slash x = None.

Definition parsed (p : PurePath) : Prop :=
  (root p = "" \/ root p = "/" \/ root p = "//") /\ Forall seg_ok (segs p).

(** * Properties *)

(** ** The sort of [scan_project_for_files] *)

Lemma insert_desc_perm (x : FileRecord) (l : list FileRecord) :
  Permutation (insert_desc x l) (x :: l).
Proof.
  induction l as [|y l IH]; simpl.
  - apply Permutation_refl.
  - destruct (timestamp x <? timestamp y)%Z.
    + apply perm_trans with (y :: x :: l).
      * now apply perm_skip.
      * apply perm_swap.
    + apply Permutation_refl.
Qed.

Lemma sort_desc_perm (l : list FileRecord) : Permutation (sort_desc l) l.
Proof.
  induction l as [|x l IH]; simpl.
  - apply perm_nil.
  - apply perm_trans with (x :: sort_desc l).
    + apply insert_desc_perm.
    + now apply perm_skip.
Qed.

Lemma sort_desc_in (x : FileRecord) (l : list FileRecord) :
  In x (sort_desc l) <-> In x l.
Proof.
  split; apply Permutation_in;
    [apply sort_desc_perm | apply Permutation_sym, sort_desc_perm].
Qed.



Lemma insert_desc_stable (t : Z) (x : FileRecord) (l : list FileRecord) :
  filter (fun r => (timestamp r =? t)%Z) (insert_desc x l) =
  filter (fun r => (timestamp r =? t)%Z) (x :: l).
Proof.
  induction l as [|y l IH]; [reflexivity|].
  simpl insert_desc.
  destruct (timestamp x <? timestamp y)%Z eqn:E; [|reflexivity].
  apply Z.ltb_lt in E.
  cbn [filter]. rewrite IH. cbn [filter].
  destruct (timestamp y =? t)%Z eqn:Ey, (timestamp x =? t)%Z eqn:Ex;
    try reflexivity.
  apply Z.eqb_eq in Ey, Ex. lia.
Qed.

(** The sort is stable: records of one timestamp keep their order. *)
Lemma sort_desc_stable (t : Z) (l : list FileRecord) :
  filter (fun r => (timestamp r =? t)%Z) (sort_desc l) =
  filter (fun r => (timestamp r =? t)%Z) l.
Proof.
  induction l as [|x l IH]; [reflexivity|].
  simpl sort_desc. rewrite insert_desc_stable. simpl. now rewrite IH.
Qed.

(** The first record after the sort is the first one of the input that
    has the latest timestamp. *)
Lemma sort_desc_head (l : list FileRecord) :
  l <> [] ->
  exists l1 e l2 tl,
    l = l1 ++ e :: l2 /\ sort_desc l = e :: tl /\
    Forall (fun r => (timestamp r < timestamp e)%Z) l1 /\
    Forall (fun r => (timestamp r <= timestamp e)%Z) l2.
Proof.
  induction l as [|x l IH]; [congruence|]. intros _.
  destruct l as [|y l'].
  - exists [], x, [], []. repeat split; constructor.
  - destruct IH as (l1 & e & l2 & tl & Hl & Hs & H1 & H2); [congruence|].
    simpl sort_desc in *. rewrite Hs. simpl.
    destruct (timestamp x <? timestamp e)%Z eqn:E.
    + apply Z.ltb_lt in E.
      exists (x :: l1), e, l2, (insert_desc x tl).
      rewrite Hl. repeat split; auto.
    + apply Z.ltb_ge in E.
      exists [], x, (y :: l'), (e :: tl).
      repeat split; auto.
      rewrite Hl. apply Forall_app. split.
      * eapply Forall_impl; [|exact H1]. simpl. intros; lia.
      * constructor; [exact E|].
        eapply Forall_impl; [|exact H2]. simpl. intros; lia.
Qed.

(** ** Grouping by path *)

Lemma canonical_path (e : FileRecord) (n : nat) :
  file_path (canonical e n) = file_path e.
Proof. unfold canonical. now destruct (Nat.ltb 1 n). Qed.

Lemma versions_of_app (p : string) (l1 l2 : list FileRecord) :
  versions_of p (l1 ++ l2) = versions_of p l1 ++ versions_of p l2.
Proof. apply filter_app. Qed.

Lemma versions_of_in (p : string) (l : list FileRecord) (r : FileRecord) :
  In r (versions_of p l) <-> In r l /\ file_path r = p.
Proof.
  unfold versions_of. rewrite filter_In, String.eqb_eq.
  intuition congruence.
Qed.

Lemma versions_append_keys (g : list (string * list FileRecord)) (r : FileRecord) :
  map fst (versions_append g r) =
  if Str.mem (file_path r) (map fst g) then map fst g
  else map fst g ++ [file_path r].
Proof.
  induction g as [|[q ws] g IH]; [reflexivity|].
  simpl. rewrite (String.eqb_sym (file_path r) q).
  destruct (String.eqb q (file_path r)); simpl; [reflexivity|].
  rewrite IH. unfold Str.mem. now destruct (existsb _ _).
Qed.

Lemma mem_in (s : string) (l : list string) : Str.mem s l = true <-> In s l.
Proof.
  unfold Str.mem. rewrite existsb_exists. split.
  - intros (x & Hx & E). apply String.eqb_eq in E. now subst.
  - intros Hs. exists s. split; [exact Hs | apply String.eqb_refl].
Qed.

Lemma versions_append_in (g : list (string * list FileRecord)) (r : FileRecord) :
  NoDup (map fst g) ->
  forall p vs, In (p, vs) (versions_append g r) ->
    (p <> file_path r /\ In (p, vs) g) \/
    (p = file_path r /\
     ((exists vs0, In (p, vs0) g /\ vs = vs0 ++ [r]) \/
      (~ In p (map fst g) /\ vs = [r]))).
Proof.
  induction g as [|[q ws] g IH]; intros Hnd p vs Hin.
  - simpl in Hin. destruct Hin as [E|[]]. inversion E; subst.
    right. split; [reflexivity|]. right. split; [intros []|reflexivity].
  - simpl in Hnd. inversion Hnd as [|? ? Hq Hnd']; subst.
    simpl in Hin. destruct (String.eqb q (file_path r)) eqn:E.
    + apply String.eqb_eq in E. destruct Hin as [Hh|Ht].
      * inversion Hh; subst. right. split; [reflexivity|]. left.
        exists ws. split; [now left | reflexivity].
      * left. split; [|now right].
        intros ->. apply Hq. rewrite E.
        change (file_path r) with (fst (file_path r, vs)). now apply in_map.
    + apply String.eqb_neq in E. destruct Hin as [Hh|Ht].
      * inversion Hh; subst. left. split; [exact E | now left].
      * destruct (IH Hnd' p vs Ht) as [[Hp Hg]|[Hp [(vs0 & Hg & Hv)|[Hn Hv]]]].
        -- left. split; [exact Hp | now right].
        -- right. split; [exact Hp|]. left. exists vs0. split; [now right|exact Hv].
        -- right. split; [exact Hp|]. right. split; [|exact Hv].
           simpl. intros [Hq'|Hq']; [subst; congruence | contradiction].
Qed.

Lemma versions_of_absent (p : string) (l : list FileRecord) :
  (forall r, In r l -> file_path r <> p) -> versions_of p l = [].
Proof.
  intros Hl. destruct (versions_of p l) as [|x vs] eqn:E; [reflexivity|].
  assert (Hx : In x (versions_of p l)) by (rewrite E; now left).
  apply versions_of_in in Hx. destruct Hx as [Hx Hp]. now apply Hl in Hx.
Qed.

Lemma versions_append_grouped (l : list FileRecord)
    (g : list (string * list FileRecord)) (r : FileRecord) :
  grouped l g -> grouped (l ++ [r]) (versions_append g r).
Proof.
  intros (Hnd & Hvs & Hcov). split; [|split].
  - rewrite versions_append_keys.
    destruct (Str.mem (file_path r) (map fst g)) eqn:E; [exact Hnd|].
    assert (Hn : ~ In (file_path r) (map fst g)).
    { intros Hin. apply mem_in in Hin. congruence. }
    apply (Permutation_NoDup (Permutation_cons_append _ _)).
    now constructor.
  - intros p vs Hin. rewrite versions_of_app.
    destruct (versions_append_in g r Hnd p vs Hin)
      as [[Hp Hg]|[Hp [(vs0 & Hg & Hv)|[Hn Hv]]]].
    + destruct (Hvs p vs Hg) as [-> Hne]. split; [|exact Hne].
      unfold versions_of at 3. simpl.
      destruct (String.eqb p (file_path r)) eqn:E.
      * apply String.eqb_eq in E. congruence.
      * now rewrite app_nil_r.
    + destruct (Hvs p vs0 Hg) as [-> Hne]. subst vs p. split.
      * unfold versions_of at 3. simpl. now rewrite String.eqb_refl.
      * intros E. now apply app_eq_nil in E.
    + subst vs p. split; [|congruence].
      rewrite versions_of_absent.
      * unfold versions_of. simpl. now rewrite String.eqb_refl.
      * intros r' Hr' E. apply Hn. rewrite <- E. now apply Hcov.
  - intros r' Hr'. rewrite versions_append_keys.
    apply in_app_or in Hr'.
    destruct (Str.mem (file_path r) (map fst g)) eqn:E.
    + destruct Hr' as [Hr'|[<-|[]]]; [now apply Hcov | now apply mem_in].
    + apply in_or_app. destruct Hr' as [Hr'|[<-|[]]];
        [left; now apply Hcov | right; now left].
Qed.

Lemma fold_versions_grouped (l l0 : list FileRecord)
    (g : list (string * list FileRecord)) :
  grouped l0 g -> grouped (l0 ++ l) (fold_left versions_append l g).
Proof.
  revert l0 g. induction l as [|r l IH]; intros l0 g Hg; simpl.
  - now rewrite app_nil_r.
  - replace (l0 ++ r :: l) with ((l0 ++ [r]) ++ l)
      by (now rewrite <- app_assoc).
    apply IH. now apply versions_append_grouped.
Qed.

Lemma group_by_path_grouped (l : list FileRecord) :
  grouped l (group_by_path l).
Proof.
  apply (fold_versions_grouped l [] []).
  split; [constructor | split; [intros ? ? [] | intros ? []]].
Qed.



Lemma latest_version_spec (versions : list FileRecord) :
  versions <> [] ->
  exists v1 e v2,
    versions = v1 ++ e :: v2 /\
    Forall (fun r => (timestamp r < timestamp e)%Z) v1 /\
    Forall (fun r => (timestamp r <= timestamp e)%Z) v2 /\
    latest_version versions = [canonical e (List.length versions)].
Proof.
  intros Hne.
  destruct (sort_desc_head versions Hne) as (v1 & e & v2 & tl & Hl & Hs & H1 & H2).
  exists v1, e, v2. repeat split; auto.
  unfold latest_version. now rewrite Hs.
Qed.

Lemma resolve_versions_in (all_files : list FileRecord) (x : FileRecord) :
  In x (resolve_versions all_files) <->
  exists p, In (p, versions_of p all_files) (group_by_path all_files) /\
            In x (latest_version (versions_of p all_files)).
Proof.
  unfold resolve_versions. rewrite sort_desc_in, in_flat_map.
  destruct (group_by_path_grouped all_files) as (_ & Hvs & _).
  split.
  - intros ([p vs] & Hg & Hx). simpl in Hx.
    destruct (Hvs p vs Hg) as [-> _]. now exists p.
  - intros (p & Hg & Hx). now exists (p, versions_of p all_files).
Qed.

(** ** Versioning *)



(** ** Recovery: target paths, outcomes and effects *)



Section RecoveryProperties.

Context {F : Type} `{FileSystem F}.
Variable create_backups : bool.
Variable answers : nat -> bool.

Local Abbreviation recover_file' := (recover_file create_backups answers).
Local Abbreviation recover_files' := (recover_files create_backups answers).

Lemma recover_file_reports (e : FileRecord) (tp : option PurePath)
    (force : bool) (w : World F) :
  file_record (fst (recover_file' e tp force w)) = e /\
  target_path (fst (recover_file' e tp force w)) = final_target e tp.
Proof.
  unfold recover_file.
  destruct (confirm_gate answers _ force w) as [[|] w1]; simpl.
  - now destruct tp.
  - destruct (try_block create_backups _ _ _ _) as [[[ex|] bc] f']; simpl;
      now destruct tp.
Qed.


Lemma recover_files_records (events : list FileRecord)
    (target_dir : option PurePath) (preserve_structure force : bool)
    (w : World F) :
  map file_record
    (fst (recover_files' events target_dir preserve_structure force w)) = events.
Proof.
  revert w.
  induction events as [|e events IH]; intros w; simpl; [reflexivity|].
  pose proof (recover_file_reports e
                (batch_target target_dir preserve_structure e) force w) as [Hr _].
  destruct (recover_file _ _ e _ force w) as [r w1]. simpl in Hr.
  specialize (IH w1).
  destruct (recover_files _ _ events _ _ _ w1) as [rs w2].
  simpl in *. now rewrite Hr, IH.
Qed.

Lemma recover_files_targets (events : list FileRecord)
    (target_dir : option PurePath) (preserve_structure force : bool)
    (w : World F) :
  map target_path
    (fst (recover_files' events target_dir preserve_structure force w)) =
  map (fun e => final_target e (batch_target target_dir preserve_structure e))
      events.
Proof.
  revert w.
  induction events as [|e events IH]; intros w; simpl; [reflexivity|].
  pose proof (recover_file_reports e
                (batch_target target_dir preserve_structure e) force w) as [_ Hr].
  destruct (recover_file _ _ e _ force w) as [r w1]. simpl in Hr.
  specialize (IH w1).
  destruct (recover_files _ _ events _ _ _ w1) as [rs w2].
  simpl in *. now rewrite Hr, IH.
Qed.


(** C7. A target that exists, no [force], and a user who declines: the
    outcome is a failure with [was_existing], a reason that is not empty
    and no backup, and the file system is the one before the call. *)
Theorem declined_overwrite_leaves_disk (e : FileRecord)
    (tp : option PurePath) (w : World F) :
  path_exists (final_target e tp) (fs w) = true ->
  answers (asked w) = false ->
  let r := fst (recover_file' e tp false w) in
  let w' := snd (recover_file' e tp false w) in
  success r = false /\
  was_existing r = true /\
  error_message r = Some "User cancelled overwrite" /\
  error_message r <> Some "" /\
  backup_created r = false /\
  fs w' = fs w.
Proof.
  intros Hex Hans. unfold recover_file.
  assert (E : path_exists
                match tp with
                | Some p => p
                | None => Path (file_path e)
                end (fs w) = true)
    by (destruct tp; exact Hex).
  rewrite E. unfold confirm_gate, confirm_ask. simpl. rewrite Hans. simpl.
  repeat split; congruence.
Qed.


Lemma preview_loop_spec (events : list FileRecord)
    (target_dir : option PurePath) (preserve_structure : bool) (w : World F) :
  preview_loop events target_dir preserve_structure w =
  (map (fun e =>
          let t := final_target e (batch_target target_dir preserve_structure e) in
          mkPreviewLine (path_exists t (fs w)) t (size_bytes e)) events, w).
Proof.
  induction events as [|e events IH]; simpl; [reflexivity|].
  rewrite IH. unfold final_target.
  now destruct (batch_target target_dir preserve_structure e).
Qed.

(** C9. The preview leaves the world as it found it: it only asks, for
    each record, whether the target exists, and reports for each record
    the target, NEW or OVERWRITE and the size, the number of records and
    their total size. *)
Theorem preview_changes_nothing (events : list FileRecord)
    (target_dir : option PurePath) (preserve_structure : bool) (w : World F) :
  snd (preview_recovery events target_dir preserve_structure w) = w /\
  fst (preview_recovery events target_dir preserve_structure w) =
    mkPreview
      (map (fun e =>
              let t := final_target e (batch_target target_dir preserve_structure e) in
              mkPreviewLine (path_exists t (fs w)) t (size_bytes e)) events)
      (List.length events)
      (list_sum (map size_bytes events)).
Proof.
  unfold preview_recovery. rewrite preview_loop_spec. simpl.
  split; [reflexivity|]. f_equal.
  induction events as [|e events IH]; simpl; [reflexivity | now rewrite IH].
Qed.

End RecoveryProperties.

(** ** pathlib facts *)

Lemma take_drop (n : nat) (s : string) : (Str.take n s ++ Str.drop n s)%string = s.
Proof.
  revert s. induction n as [|n IH]; intros [|c s]; simpl; try reflexivity.
  now rewrite IH.
Qed.

Lemma drop_length (n : nat) (s : string) :
  String.length (Str.drop n s) = String.length s - n.
Proof.
  revert s. induction n as [|n IH]; intros [|c s]; simpl; auto.
Qed.


Lemma append_assoc (a b c : string) :
  ((a ++ b) ++ c)%string = (a ++ (b ++ c))%string.
Proof. induction a as [|x a IH]; simpl; [reflexivity | now rewrite IH]. Qed.

Lemma rfind_bound (c : ascii) (s : string) (i : nat) :
  Str.rfind c s = Some i -> i < String.length s.
Proof.
  revert i. induction s as [|a s IH]; intros i; simpl; [discriminate|].
  destruct (Str.rfind c s) as [j|].
  - intros E. inversion E; subst. specialize (IH j eq_refl). lia.
  - destruct (Ascii.eqb a c); intros E; inversion E; lia.
Qed.

(** Replacing the suffix by itself followed by an extension appends the
    extension to the name. *)
Lemma with_suffix_appends (p : PurePath) (ext : string) :
  name p <> "" ->
  with_suffix p (suffix p ++ ext)%string = Ret (add_ext p ext).
Proof.
  intros Hn. unfold with_suffix, add_ext.
  apply String.eqb_neq in Hn. rewrite Hn.
  destruct (String.eqb (suffix p) "") eqn:E.
  - apply String.eqb_eq in E. now rewrite E.
  - do 3 f_equal. unfold suffix in *.
    destruct (Str.rfind "."%char (name p)) as [i|] eqn:Hi; [|discriminate].
    destruct (Nat.ltb 0 i && Nat.ltb i (String.length (name p) - 1));
      [|discriminate].
    apply rfind_bound in Hi. rewrite drop_length.
    replace (String.length (name p) - (String.length (name p) - i)) with i by lia.
    now rewrite <- append_assoc, take_drop.
Qed.

Lemma segs_eqb_eq (l1 l2 : list string) : segs_eqb l1 l2 = true <-> l1 = l2.
Proof.
  revert l2. induction l1 as [|a l1 IH]; intros [|b l2]; simpl;
    try (split; [discriminate | congruence]); [tauto|].
  rewrite andb_true_iff, String.eqb_eq, IH. split.
  - intros [-> ->]. reflexivity.
  - intros E. inversion E. tauto.
Qed.

Lemma path_eqb_eq (p q : PurePath) : PathLib.eqb p q = true <-> p = q.
Proof.
  unfold PathLib.eqb. rewrite andb_true_iff, String.eqb_eq, segs_eqb_eq.
  destruct p, q; simpl. split.
  - intros [-> ->]. reflexivity.
  - intros E. inversion E. tauto.
Qed.

Lemma path_eqb_refl (p : PurePath) : PathLib.eqb p p = true.
Proof. now apply path_eqb_eq. Qed.

Lemma path_eqb_neq (p q : PurePath) : p <> q -> PathLib.eqb p q = false.
Proof.
  intros Hne. destruct (PathLib.eqb p q) eqn:E; [|reflexivity].
  now apply path_eqb_eq in E.
Qed.



Lemma joinpath_valid (p q : PurePath) : valid p -> valid q -> valid (joinpath p q).
Proof.
  unfold valid, joinpath. intros Hp Hq.
  destruct (String.eqb (root q) ""); simpl; [|exact Hq].
  apply Forall_app. now split.
Qed.

(** ** The in-memory file system *)

Module MemFSFacts.
Import MemFS.

Lemma lookup_update_same (f : t) (p : PurePath) (n : node) :
  segs p <> [] -> lookup (update f p n) p = Some n.
Proof.
  intros Hne. unfold lookup, update.
  destruct (segs p); [congruence|]. now rewrite path_eqb_refl.
Qed.

Lemma lookup_update_other (f : t) (p q : PurePath) (n : node) :
  q <> p -> lookup (update f p n) q = lookup f q.
Proof.
  intros Hne. unfold lookup, update. now rewrite (path_eqb_neq q p Hne).
Qed.


(** No regular file on the way: [mkdir] succeeds, the directory is there
    afterwards, and the only entries that changed are directories that
    were missing on the way. *)
Lemma mkdir_walk_ok (r : string) (todo : list string) :
  forall done f,
    (forall k data, k < List.length todo ->
       lookup f (mkPath r (done ++ firstn (S k) todo)) <> Some (File data)) ->
    lookup f (mkPath r done) = Some Dir ->
    exists f',
      mkdir_walk r done todo f = (None, f') /\
      lookup f' (mkPath r (done ++ todo)) = Some Dir /\
      (forall q, lookup f' q = lookup f q \/
                 (lookup f q = None /\
                  exists k, k < List.length todo /\
                            q = mkPath r (done ++ firstn (S k) todo))).
Proof.
  induction todo as [|s todo IH]; intros done f Hno Hdone.
  - exists f. rewrite app_nil_r. repeat split; auto.
  - simpl.
    pose proof (Hno 0) as H0. simpl in H0.
    assert (Hne : done ++ [s] <> []) by (now destruct done).
    assert (Hstep : forall f1,
              lookup f1 (mkPath r (done ++ [s])) = Some Dir ->
              (forall q, q <> mkPath r (done ++ [s]) -> lookup f1 q = lookup f q) ->
              forall k data, k < List.length todo ->
                lookup f1 (mkPath r ((done ++ [s]) ++ firstn (S k) todo))
                  <> Some (File data)).
    { intros f1 Hp Hfr k data Hk. rewrite Hfr.
      - rewrite <- app_assoc. apply (Hno (S k) data). simpl. lia.
      - intros Eq. inversion Eq as [Eq'].
        apply (f_equal (@List.length string)) in Eq'.
        rewrite length_app in Eq'.
        destruct todo; simpl in Hk, Eq'; lia. }
    destruct (lookup f (mkPath r (done ++ [s]))) as [[data|]|] eqn:Hl.
    + exfalso. apply (H0 data); [simpl; lia | reflexivity].
    + destruct (IH (done ++ [s]) f) as (f' & Hm & Hd & Hfr); auto.
      exists f'. rewrite <- app_assoc in Hd. simpl in Hd.
      repeat split; auto.
      intros q. destruct (Hfr q) as [E|(Hq & k & Hk & Hqk)]; [now left|].
      right. split; [exact Hq|]. exists (S k). split; [simpl; lia|].
      rewrite Hqk, <- app_assoc. reflexivity.
    + set (p := mkPath r (done ++ [s])) in *.
      assert (Hsegs : segs p <> []) by exact Hne.
      destruct (IH (done ++ [s]) (update f p Dir)) as (f' & Hm & Hd & Hfr).
      * apply Hstep.
        -- now apply lookup_update_same.
        -- intros q Hq. now apply lookup_update_other.
      * now apply lookup_update_same.
      * exists f'. rewrite <- app_assoc in Hd. simpl in Hd.
        repeat split; auto.
        intros q. destruct (Hfr q) as [E|(Hq & k & Hk & Hqk)].
        -- destruct (PathLib.eqb q p) eqn:Eq.
           ++ apply path_eqb_eq in Eq. rewrite Eq. right. split; [exact Hl|].
              exists 0. split; [simpl; lia | reflexivity].
           ++ left. rewrite E. apply lookup_update_other.
              intros ->. now rewrite path_eqb_refl in Eq.
        -- right. split.
           ++ destruct (PathLib.eqb q p) eqn:Eq.
              ** apply path_eqb_eq in Eq. rewrite Eq. exact Hl.
              ** rewrite <- Hq. symmetry. apply lookup_update_other.
                 intros ->. now rewrite path_eqb_refl in Eq.
           ++ exists (S k). split; [simpl; lia|].
              rewrite Hqk, <- app_assoc. reflexivity.
Qed.


End MemFSFacts.

Module BackupProperties.
Import MemFS MemFSFacts.





Lemma put_file_ok (f : t) (p : PurePath) (data : string) :
  lookup f p <> Some Dir -> lookup f (parent p) = Some Dir ->
  put_file p data f = (None, update f p (File data)).
Proof.
  intros Hp Hpar. unfold put_file. rewrite Hpar.
  destruct (lookup f p) as [[d|]|]; congruence.
Qed.


End BackupProperties.

(** ** Scanning *)














Lemma scan_write_entry (fromisoformat : string -> option Z) (now : nat -> Z)
    (conversation_id project_name ts path text : string) (t : Z) (n : nat) :
  fromisoformat (Str.replace "Z"%char "+00:00" ts) = Some t ->
  scan_line fromisoformat now conversation_id project_name
    (Parsed (write_entry ts path text)) n =
  ([mkFileRecord path text Write t conversation_id project_name
      (String.length text) None], Ret tt, n).
Proof.
  intros Hts.
  unfold scan_line, gexcept, scan_entry, write_entry, gbind, glift.
  cbn -[Str.replace]. unfold gbind, gret. rewrite Hts. reflexivity.
Qed.

Lemma scan_read_entry (fromisoformat : string -> option Z) (now : nat -> Z)
    (conversation_id project_name ts path text : string) (t : Z) (n : nat) :
  fromisoformat (Str.replace "Z"%char "+00:00" ts) = Some t ->
  scan_line fromisoformat now conversation_id project_name
    (Parsed (read_entry ts path text)) n =
  ([mkFileRecord path text Read t conversation_id project_name
      (String.length text) None], Ret tt, n).
Proof.
  intros Hts.
  unfold scan_line, gexcept, scan_entry, read_entry, gbind, glift.
  cbn -[Str.replace]. unfold gbind, gret. rewrite Hts. reflexivity.
Qed.

(** A line that is not JSON is skipped: it yields nothing and the scan
    goes on. *)
Lemma scan_line_malformed (fromisoformat : string -> option Z)
    (now : nat -> Z) (conversation_id project_name : string) (n : nat) :
  scan_line fromisoformat now conversation_id project_name Malformed n =
  ([], Ret tt, n).
Proof. reflexivity. Qed.

(** A line that is JSON but not an object raises [AttributeError] at
    [entry.get], which the [except] clause does not catch. *)
Lemma scan_line_not_object (fromisoformat : string -> option Z)
    (now : nat -> Z) (conversation_id project_name : string) (entry : json)
    (n : nat) :
  Py.isinstance_dict entry = false ->
  scan_line fromisoformat now conversation_id project_name (Parsed entry) n =
  ([], Raise (mkExn AttributeError "object has no attribute 'get'"), n).
Proof. destruct entry; intros E; try discriminate; reflexivity. Qed.

(** C2, at a log the code can be given.  The middle line is the JSON
    array [[]]: [entry.get] raises [AttributeError], the [except] clause
    lets it through, the generator stops after the first record, and
    [scan_project_for_files] drops the whole file; without that line the
    same log resolves to one record. *)
Theorem non_object_line_loses_the_file :
  _scan_conversation_for_files Example.fromisoformat (Example.clock 0)
    Example.log_with_list_line 0 =
    ([Example.write_record],
     Raise (mkExn AttributeError "object has no attribute 'get'"), 0) /\
  scan_project_for_files Example.fromisoformat (Example.clock 0)
    [Example.log_with_list_line] = [] /\
  scan_project_for_files Example.fromisoformat (Example.clock 0)
    [Example.log] = [Example.resolved].
Proof. repeat split; reflexivity. Qed.

(** X5. Lines that are not JSON do not change what a file yields. *)
Lemma malformed_lines_are_skipped (fromisoformat : string -> option Z)
    (now : nat -> Z) (dir name : string) (before after : list line) (n : nat) :
  _scan_conversation_for_files fromisoformat now
    (mkJsonl dir name (before ++ Malformed :: after)) n =
  _scan_conversation_for_files fromisoformat now
    (mkJsonl dir name (before ++ after)) n.
Proof.
  unfold _scan_conversation_for_files. simpl.
  revert n. induction before as [|l before IH]; intros n; simpl.
  - unfold gbind at 1. rewrite scan_line_malformed.
    now destruct (gfor after _ n) as [[ys r] n'].
  - unfold gbind. destruct (scan_line _ _ _ _ l n) as [[ys [[]|e]] n'];
      [|reflexivity].
    now rewrite IH.
Qed.




Module FreshProperties.
Import MemFS MemFSFacts BackupProperties.

(** Nothing at the target and no file in the way: the recovery needs no
    question and no backup, makes the directories and writes the file. *)
Lemma recover_fresh (create_backups : bool) (answers : nat -> bool)
    (e : FileRecord) (tp : option PurePath) (force : bool) (w : World t) :
  lookup (fs w) (final_target e tp) = None ->
  no_file_above (fs w) (final_target e tp) ->
  exists f',
    recover_file create_backups answers e tp force w =
      (mkRecoveryResult e true (final_target e tp) None false false,
       mkWorld f' (asked w)) /\
    lookup f' (final_target e tp) = Some (File (content e)).
Proof.
  set (target := final_target e tp). intros Hnone Hclear.
  assert (Hne : segs target <> []).
  { intros E. unfold lookup in Hnone. rewrite E in Hnone. discriminate. }
  destruct (mkdir_walk_ok (root target) (segs (parent target)) [] (fs w))
    as (f1 & Hmk & Hdir & Hframe).
  { intros k data Hk. rewrite app_nil_l. now apply Hclear. }
  { reflexivity. }
  rewrite app_nil_l in Hdir.
  assert (Hdir' : lookup f1 (parent target) = Some Dir) by exact Hdir.
  assert (Ht1 : lookup f1 target = None).
  { destruct (Hframe target) as [E|(_ & k & Hk & E)]; [congruence|].
    exfalso. rewrite app_nil_l in E.
    apply (f_equal (fun p => List.length (segs p))) in E. cbn [segs] in E.
    rewrite length_firstn in E. cbn [segs parent] in Hk, E.
    assert (List.length (removelast (segs target)) < List.length (segs target)).
    { rewrite (app_removelast_last "" Hne) at 2. rewrite length_app. simpl. lia. }
    lia. }
  exists (update f1 target (File (content e))). split.
  - unfold recover_file. fold (final_target e tp). fold target.
    change (path_exists target (fs w)) with (exists_ target (fs w)).
    unfold exists_. rewrite Hnone.
    unfold confirm_gate. simpl andb. cbv iota.
    unfold try_block.
    change (mkdir_parents (parent target) (fs w))
      with (mkdir_walk (root target) [] (segs (parent target)) (fs w)).
    rewrite Hmk. unfold backup_step. simpl andb. cbv iota.
    change (write_text target (content e) f1)
      with (put_file target (content e) f1).
    rewrite put_file_ok; [reflexivity | congruence | exact Hdir'].
  - now apply lookup_update_same.
Qed.

(** C1, as the code has it.  A log with a Write of [print('hi')] to
    [/a/b/src/x.py] at T and a Read of the same path at T + 1 resolves to
    one record: the Read, with its content and the version count 2.
    Recovering it into [/out] with [preserve_structure], where nothing is
    at the target and no file is in the way, writes the content of the
    Read at [/out/b/src/x.py] (the directory before the marker [src] is
    kept) and reports no backup. *)
Theorem end_to_end_recovery (fromisoformat : string -> option Z)
    (now : nat -> Z) (sT sT1 : string) (T : Z) (read_text dir conv : string) :
  fromisoformat (Str.replace "Z"%char "+00:00" sT) = Some T ->
  fromisoformat (Str.replace "Z"%char "+00:00" sT1) = Some (T + 1)%Z ->
  let log := mkJsonl dir conv
               [Parsed (write_entry sT "/a/b/src/x.py" "print('hi')");
                Parsed (read_entry sT1 "/a/b/src/x.py" read_text)] in
  let latest := mkFileRecord "/a/b/src/x.py" read_text Read (T + 1) conv
                  (_extract_project_name dir) (String.length read_text)
                  (Some 2) in
  let target := mkPath "/" ["out"; "b"; "src"; "x.py"] in
  scan_project_for_files fromisoformat now [log] = [latest] /\
  forall (create_backups : bool) (answers : nat -> bool) (force : bool)
         (w : World t),
    lookup (fs w) target = None ->
    no_file_above (fs w) target ->
    exists f',
      recover_files create_backups answers [latest] (Some (Path "/out"))
        true force w =
        ([mkRecoveryResult latest true target None false false],
         mkWorld f' (asked w)) /\
      lookup f' target = Some (File read_text).
Proof.
  intros HT HT1 log latest target. split.
  - unfold scan_project_for_files, collect_files, _scan_conversation_for_files.
    unfold log. cbn [lines stem parent_name gfor]. unfold gbind.
    rewrite (scan_write_entry _ _ _ _ _ _ _ T 0 HT).
    rewrite (scan_read_entry _ _ _ _ _ _ _ (T + 1)%Z 0 HT1).
    cbn [gret app fst].
    unfold resolve_versions, group_by_path. cbn [fold_left versions_append file_path].
    rewrite String.eqb_refl. cbn [app flat_map snd].
    unfold latest_version.
    cbn [sort_desc fold_right insert_desc timestamp].
    assert (E : (T <? T + 1)%Z = true) by (apply Z.ltb_lt; lia).
    rewrite E. reflexivity.
  - intros create_backups answers force w Hnone Hclear.
    destruct (recover_fresh create_backups answers latest (Some target) force w
                Hnone Hclear) as (f' & Hrun & Hf').
    exists f'. split; [|exact Hf'].
    cbn [recover_files].
    change (batch_target (Some (Path "/out")) true latest) with (Some target).
    now rewrite Hrun.
Qed.

End FreshProperties.

(** ** The properties at concrete inputs *)

Module Witnesses.
Import MemFS MemFSFacts BackupProperties FreshProperties.

Lemma lookup_empty (p : PurePath) (data : string) :
  lookup empty p <> Some (File data).
Proof. unfold lookup, empty. destruct (segs p); discriminate. Qed.


(** C1 as stated fails on its own example: the target is
    [/out/b/src/x.py], and nothing is written at [/out/src/x.py]. *)
Lemma end_to_end_target_keeps_parent :
  let resolved := scan_project_for_files Example.fromisoformat
                    (Example.clock 0) [Example.log] in
  let run := recover_files true Example.no resolved (Some Example.out)
               true false (mkWorld empty 0) in
  resolved = [Example.resolved] /\
  map success (fst run) = [true] /\
  map backup_created (fst run) = [false] /\
  map target_path (fst run) = [Path "/out/b/src/x.py"] /\
  map target_path (fst run) <> [Path "/out/src/x.py"] /\
  lookup (fs (snd run)) (Path "/out/src/x.py") = None /\
  lookup (fs (snd run)) (Path "/out/b/src/x.py")
    = Some (File "print('hello')").
Proof. repeat split; try reflexivity. discriminate. Qed.

Lemma end_to_end_witness :
  scan_project_for_files Example.fromisoformat (Example.clock 0) [Example.log]
    = [Example.resolved] /\
  exists f',
    recover_files true Example.no [Example.resolved] (Some (Path "/out"))
      true false (mkWorld empty 0) =
      ([mkRecoveryResult Example.resolved true (Path "/out/b/src/x.py")
          None false false], mkWorld f' 0) /\
    lookup f' (Path "/out/b/src/x.py") = Some (File "print('hello')").
Proof.
  destruct (end_to_end_recovery Example.fromisoformat (Example.clock 0)
              "2024-05-01T10:00:00Z" "2024-05-01T10:00:01Z" 1000
              "print('hello')" "-a-b" "c0ffee" eq_refl eq_refl)
    as [Hscan Hrec].
  split; [exact Hscan|].
  apply (Hrec true Example.no false (mkWorld empty 0)).
  - reflexivity.
  - intros k data _. apply lookup_empty.
Defined.




(** A marker right under the root: the parts kept start with the root,
    and joining a rooted path to the target directory gives the rooted
    path itself. *)
Lemma marker_under_root_keeps_root :
  _make_relative_path "/src/x.py" = Path "/src/x.py" /\
  batch_target (Some Example.out) true
    (mkFileRecord "/src/x.py" "x" Write 0 "c" "p" 1 None)
    = Some (Path "/src/x.py").
Proof. split; reflexivity. Qed.


Lemma declined_overwrite_witness :
  let run := recover_file true Example.no Example.stray
               (Some (Path "/out/x.py")) false (mkWorld Example.disk_flat 0) in
  path_exists (Path "/out/x.py") Example.disk_flat = true /\
  success (fst run) = false /\ was_existing (fst run) = true /\
  backup_created (fst run) = false /\
  fs (snd run) = Example.disk_flat.
Proof.
  destruct (@declined_overwrite_leaves_disk t file_system true Example.no
              Example.stray
              (Some (Path "/out/x.py")) (mkWorld Example.disk_flat 0)
              eq_refl eq_refl)
    as (Hs & He & _ & _ & Hb & Hfs).
  cbv zeta. split; [reflexivity|]. repeat split; assumption.
Defined.


End Witnesses.

(** * Further properties of the code *)

(** ** What the scanner yields *)

Module ScanProperties.

Lemma extract_record_shape (tool_use : json) (ts : Z)
    (conversation_id project_name : string) (r : FileRecord) :
  _extract_file_from_tool_use tool_use ts conversation_id project_name
    = Ret (Some r) ->
  Py.get tool_use "name" (JStr "") = Ret (JStr "Write") /\
  (exists tool_input,
      Py.get tool_use "input" (JObj []) = Ret tool_input /\
      Py.getitem tool_input "file_path" = Ret (JStr (file_path r)) /\
      Py.getitem tool_input "content" = Ret (JStr (content r))) /\
  r = mkFileRecord (file_path r) (content r) Write ts conversation_id
        project_name (String.length (content r)) None.
Proof.
  unfold _extract_file_from_tool_use. intros H. cbv zeta in H.
  destruct (Py.get tool_use "name" (JStr "")) as [tool_name|]; [|discriminate].
  destruct (Py.get tool_use "input" (JObj [])) as [tool_input|]; [|discriminate].
  destruct (Py.str_eq tool_name "Write") eqn:Hname.
  - destruct (Py.contains "file_path" tool_input) as [[|]|];
      [| | discriminate].
    + destruct (Py.contains "content" tool_input) as [[|]|];
        [| | discriminate].
      * destruct (Py.getitem tool_input "file_path") as [p|] eqn:Hp;
          [|discriminate].
        destruct (Py.getitem tool_input "content") as [c|] eqn:Hc;
          [|discriminate].
        destruct c; try discriminate. destruct p; try discriminate.
        simpl in H. inversion H; subst; clear H. simpl.
        destruct tool_name; try discriminate. simpl in Hname.
        apply String.eqb_eq in Hname. subst.
        split; [reflexivity|]. split; [|reflexivity].
        exists tool_input. auto.
      * repeat match type of H with
             | context [match ?x with _ => _ end] => destruct x
             end; discriminate.
    + repeat match type of H with
             | context [match ?x with _ => _ end] => destruct x
             end; discriminate.
  - repeat match type of H with
             | context [match ?x with _ => _ end] => destruct x
             end; discriminate.
Qed.

Lemma ya_gret {A} (P : FileRecord -> Prop) (a : A) : yields_all P (gret a).
Proof. intros n. constructor. Qed.

Lemma ya_glift {A} (P : FileRecord -> Prop) (o : outcome A) :
  yields_all P (glift o).
Proof. intros n. constructor. Qed.

Lemma ya_gyield (P : FileRecord -> Prop) (r : FileRecord) :
  P r -> yields_all P (gyield r).
Proof. intros Hr n. simpl. now constructor. Qed.

Lemma ya_bind {A B} (P : FileRecord -> Prop) (m : Gen A) (k : A -> Gen B) :
  yields_all P m ->
  (forall a, (exists n ys n', m n = (ys, Ret a, n')) -> yields_all P (k a)) ->
  yields_all P (gbind m k).
Proof.
  intros Hm Hk n. unfold gbind. specialize (Hm n).
  destruct (m n) as [[ys [a|e]] n'] eqn:E; simpl in *; [|exact Hm].
  assert (Hka : yields_all P (k a)) by (apply Hk; now exists n, ys, n').
  specialize (Hka n'). destruct (k a n') as [[ys' r] n'']. simpl in *.
  apply Forall_app. now split.
Qed.

Lemma ya_except {A} (P : FileRecord -> Prop) (m : Gen A) (h : exn -> Gen A) :
  yields_all P m -> (forall e, yields_all P (h e)) ->
  yields_all P (gexcept m h).
Proof.
  intros Hm Hh n. unfold gexcept. specialize (Hm n).
  destruct (m n) as [[ys [a|e]] n']; simpl in *; [exact Hm|].
  specialize (Hh e n'). destruct (h e n') as [[ys' r] n'']. simpl in *.
  apply Forall_app. now split.
Qed.

Lemma ya_gfor {A} (P : FileRecord -> Prop) (xs : list A) (body : A -> Gen unit) :
  (forall x, In x xs -> yields_all P (body x)) -> yields_all P (gfor xs body).
Proof.
  induction xs as [|x xs IH]; intros Hb; simpl.
  - apply ya_gret.
  - apply ya_bind; [apply Hb; now left|].
    intros _ _. apply IH. intros y Hy. apply Hb. now right.
Qed.

Lemma glift_ret {A} (o : outcome A) (a : A) :
  (exists n ys n', glift o n = (ys, Ret a, n')) -> o = Ret a.
Proof. intros (n & ys & n' & E). unfold glift in E. now inversion E. Qed.

Lemma ya_parse_timestamp (P : FileRecord -> Prop)
    (fromisoformat : string -> option Z) (now : nat -> Z) (ts : json) :
  yields_all P (_parse_timestamp fromisoformat now ts).
Proof.
  intros n. unfold _parse_timestamp, datetime_now, gret.
  destruct ts; try constructor.
  destruct (fromisoformat _); constructor.
Qed.

Ltac ya_steps :=
  repeat first
    [ apply ya_gret
    | apply ya_glift
    | apply ya_parse_timestamp
    | match goal with
      | |- yields_all _ (if ?b then _ else _) => destruct b
      | |- yields_all _ (match ?x with _ => _ end) => destruct x eqn:?
      end
    | apply ya_gfor; intros ? ?
    | apply ya_bind; [ | intros ? ? ] ].

Lemma scan_entry_yields (fromisoformat : string -> option Z) (now : nat -> Z)
    (entry : json) (conversation_id project_name : string) :
  yields_all (scanned_from conversation_id project_name)
    (scan_entry fromisoformat now entry conversation_id project_name).
Proof.
  unfold scan_entry. ya_steps.
  - apply ya_gyield.
    match goal with
    | H : exists _ _ _, glift (_extract_file_from_tool_use _ _ _ _) _ = _ |- _ =>
        apply glift_ret in H;
        destruct (extract_record_shape _ _ _ _ _ H) as (_ & _ & ->)
    end.
    repeat split; auto.
  - apply ya_gyield.
    match goal with
    | H : exists _ _ _, glift (Py.encode_len ?c) _ = _ |- _ =>
        apply glift_ret in H; destruct c; try discriminate;
        simpl in H; inversion H; subst
    end.
    repeat split; auto.
Qed.


Lemma scan_records_scanned_from (fromisoformat : string -> option Z)
    (now : nat -> Z) (jsonl : jsonl_file) (n : nat) :
  Forall (scanned_from (stem jsonl) (_extract_project_name (parent_name jsonl)))
    (fst (fst (_scan_conversation_for_files fromisoformat now jsonl n))).
Proof.
  revert n. change (yields_all
    (scanned_from (stem jsonl) (_extract_project_name (parent_name jsonl)))
    (_scan_conversation_for_files fromisoformat now jsonl)).
  unfold _scan_conversation_for_files. apply ya_gfor. intros l _.
  unfold scan_line. apply ya_except.
  - apply ya_bind; [apply ya_glift|]. intros entry _. apply scan_entry_yields.
  - intros e. unfold graise. destruct (caught e); [apply ya_gret | apply ya_glift].
Qed.


Lemma collect_files_app (fromisoformat : string -> option Z) (now : nat -> Z)
    (conversation_files : list jsonl_file) :
  forall all_files n,
    collect_files fromisoformat now conversation_files all_files n =
    (all_files ++ fst (collect_files fromisoformat now conversation_files [] n),
     snd (collect_files fromisoformat now conversation_files [] n)).
Proof.
  induction conversation_files as [|f files IH]; intros all_files n; simpl.
  - now rewrite app_nil_r.
  - destruct (_scan_conversation_for_files fromisoformat now f n)
      as [[ys [u|e]] n'].
    + rewrite (IH (all_files ++ ys)), (IH ([] ++ ys)). simpl.
      now rewrite app_assoc.
    + apply IH.
Qed.

Lemma collected_have_no_version_count (fromisoformat : string -> option Z)
    (now : nat -> Z) (conversation_files : list jsonl_file) :
  forall n r,
    In r (fst (collect_files fromisoformat now conversation_files [] n)) ->
    _version_count r = None /\ size_bytes r = String.length (content r).
Proof.
  induction conversation_files as [|f files IH]; intros n r Hr; simpl in Hr.
  - contradiction.
  - pose proof (scan_records_scanned_from fromisoformat now f n) as Hf.
    destruct (_scan_conversation_for_files fromisoformat now f n)
      as [[ys [u|e]] n']; simpl in Hf.
    + rewrite collect_files_app in Hr. simpl in Hr.
      apply in_app_or in Hr. destruct Hr as [Hr|Hr]; [|now apply (IH n')].
      rewrite Forall_forall in Hf. destruct (Hf r Hr) as (Hs & _ & _ & _ & Hv).
      now split.
    + now apply (IH n').
Qed.

(** X6. A log with a line that is valid JSON but not an object ends the
    scan of its file with an exception, wherever the line stands, and
    [scan_project_for_files] then collects nothing from that file: the
    records of the other files are collected as if the file were not
    there. *)
Theorem non_object_line_drops_the_file (fromisoformat : string -> option Z)
    (now : nat -> Z) (dir name : string) (before after : list line)
    (entry : json) (n : nat) :
  Py.isinstance_dict entry = false ->
  exists ys e n',
    _scan_conversation_for_files fromisoformat now
      (mkJsonl dir name (before ++ Parsed entry :: after)) n
      = (ys, Raise e, n') /\
    forall rest all_files,
      collect_files fromisoformat now
        (mkJsonl dir name (before ++ Parsed entry :: after) :: rest)
        all_files n
      = collect_files fromisoformat now rest all_files n'.
Proof.
  intros Hno.
  assert (Hscan : exists ys e n',
            _scan_conversation_for_files fromisoformat now
              (mkJsonl dir name (before ++ Parsed entry :: after)) n
            = (ys, Raise e, n')).
  { unfold _scan_conversation_for_files. simpl.
    revert n. induction before as [|l before IH]; intros n; simpl.
    - unfold gbind. rewrite (scan_line_not_object _ _ _ _ _ _ Hno).
      now eexists _, _, _.
    - unfold gbind.
      destruct (scan_line _ _ _ _ l n) as [[ys [[]|e]] n1].
      + destruct (IH n1) as (ys' & e & n' & E). rewrite E.
        now eexists _, _, _.
      + now eexists _, _, _. }
  destruct Hscan as (ys & e & n' & E). exists ys, e, n'. split; [exact E|].
  intros rest all_files. simpl collect_files at 1. now rewrite E.
Qed.

End ScanProperties.

(** ** Strings: [split], [replace] and [join] *)

Module StrFacts.

Lemma append_nil_r (s : string) : (s ++ "")%string = s.
Proof. induction s as [|a s IH]; simpl; [reflexivity | now rewrite IH]. Qed.

Lemma rfind_none_cons (c a : ascii) (s : string) :
  Str.rfind c (String a s) = None <->
  Ascii.eqb a c = false /\ Str.rfind c s = None.
Proof.
  simpl. destruct (Str.rfind c s) as [i|].
  - split; [discriminate | intros [_ E]; discriminate].
  - destruct (Ascii.eqb a c); split; try discriminate; auto.
    intros [E _]. discriminate.
Qed.

Lemma rfind_none_app (c : ascii) (s1 s2 : string) :
  Str.rfind c (s1 ++ s2)%string = None <->
  Str.rfind c s1 = None /\ Str.rfind c s2 = None.
Proof.
  induction s1 as [|a s1 IH].
  - simpl. tauto.
  - change (String a s1 ++ s2)%string with (String a (s1 ++ s2)%string).
    rewrite !rfind_none_cons, IH. tauto.
Qed.

Lemma split_not_nil (c : ascii) (s : string) : Str.split c s <> [].
Proof.
  induction s as [|a s IH]; simpl; [discriminate|].
  destruct (Ascii.eqb a c); [discriminate|].
  destruct (Str.split c s); [contradiction | discriminate].
Qed.

(** A string without the separator is one field. *)
Lemma split_absent (c : ascii) (s : string) :
  Str.rfind c s = None -> Str.split c s = [s].
Proof.
  induction s as [|a s IH]; intros Hno; [reflexivity|].
  apply rfind_none_cons in Hno. destruct Hno as [Ha Hs].
  simpl. rewrite Ha, (IH Hs). reflexivity.
Qed.

(** No field holds the separator. *)
Lemma split_fields (c : ascii) (s : string) :
  Forall (fun w => Str.rfind c w = None) (Str.split c s).
Proof.
  induction s as [|a s IH]; simpl.
  - constructor; [reflexivity | constructor].
  - destruct (Ascii.eqb a c) eqn:E.
    + constructor; [reflexivity | exact IH].
    + destruct (Str.split c s) as [|w ws]; [constructor; [|constructor]|].
      * simpl. now rewrite E.
      * inversion IH; subst. constructor; [|assumption].
        apply rfind_none_cons. now split.
Qed.

(** There is one field more than there are separators. *)
Lemma split_length (c : ascii) (s : string) :
  List.length (Str.split c s) = S (count c s).
Proof.
  induction s as [|a s IH]; simpl; [reflexivity|].
  destruct (Ascii.eqb a c); simpl; [now rewrite IH|].
  pose proof (split_not_nil c s) as Hne.
  destruct (Str.split c s) as [|w ws]; [contradiction|].
  simpl in *. exact IH.
Qed.

(** The last field is the text after the last separator. *)
Lemma split_last (c : ascii) (a b d : string) :
  last (Str.split c (a ++ String c b)) d = last (Str.split c b) d.
Proof.
  induction a as [|x a IH].
  - simpl. rewrite Ascii.eqb_refl.
    pose proof (split_not_nil c b). now destruct (Str.split c b).
  - change (String x a ++ String c b)%string
      with (String x (a ++ String c b)%string).
    cbn [Str.split].
    pose proof (split_length c (a ++ String c b)) as Hlen.
    assert (Hc : 1 <= count c (a ++ String c b)).
    { clear. induction a as [|y a IH]; simpl.
      - rewrite Ascii.eqb_refl. lia.
      - lia. }
    destruct (Str.split c (a ++ String c b)) as [|w [|w' ws]] eqn:E;
      simpl in Hlen; try lia.
    destruct (Ascii.eqb x c); exact IH.
Qed.

(** Joining the fields with the separator gives the string back. *)
Lemma join_split (c : ascii) (s : string) :
  Models.join (String c "") (Str.split c s) = s.
Proof.
  induction s as [|a s IH]; [reflexivity|].
  cbn [Str.split]. pose proof (split_not_nil c s) as Hne.
  destruct (Ascii.eqb a c) eqn:E.
  - apply Ascii.eqb_eq in E. subst a.
    destruct (Str.split c s) as [|w ws]; [contradiction|].
    change (String c (Models.join (String c "") (w :: ws)) = String c s).
    now rewrite IH.
  - destruct (Str.split c s) as [|w [|w' ws]]; [contradiction| |].
    + simpl in *. now rewrite IH.
    + change (String a (Models.join (String c "") (w :: w' :: ws))
              = String a s).
      now rewrite IH.
Qed.

Lemma replace_absent (c : ascii) (r s : string) :
  Str.rfind c s = None -> Str.replace c r s = s.
Proof.
  induction s as [|a s IH]; intros Hno; [reflexivity|].
  apply rfind_none_cons in Hno. destruct Hno as [Ha Hs].
  simpl. now rewrite Ha, (IH Hs).
Qed.

Lemma replace_app (c : ascii) (r s1 s2 : string) :
  Str.replace c r (s1 ++ s2) =
  (Str.replace c r s1 ++ Str.replace c r s2)%string.
Proof.
  induction s1 as [|a s1 IH]; [reflexivity|].
  simpl. destruct (Ascii.eqb a c); rewrite IH; [|reflexivity].
  now rewrite append_assoc.
Qed.

End StrFacts.

(** ** Timestamps, project names and lines *)

Module TextProperties.
Import StrFacts.

(** X3. A timestamp string that ends in [Z], with no other [Z] in it, is
    given to [fromisoformat] with [+00:00] in place of the [Z].  When
    the parser accepts it the result is that instant and the clock is not
    read; when it does not, the result is one reading of the clock.
    Nothing is raised either way. *)
Theorem parse_timestamp_trailing_z (fromisoformat : string -> option Z)
    (now : nat -> Z) (s : string) (n : nat) :
  Str.rfind "Z"%char s = None ->
  _parse_timestamp fromisoformat now (JStr (s ++ "Z")) n =
    match fromisoformat (s ++ "+00:00")%string with
    | Some t => ([], Ret t, n)
    | None => ([], Ret (now n), S n)
    end.
Proof.
  intros Hno. unfold _parse_timestamp.
  rewrite replace_app, (replace_absent _ _ _ Hno).
  change (Str.replace "Z"%char "+00:00" "Z") with "+00:00".
  now destruct (fromisoformat (s ++ "+00:00")%string).
Qed.

(** X4. A directory name that starts with a hyphen is reduced to what
    follows its last hyphen, so the project name holds no hyphen; a
    directory name that does not start with a hyphen is the project name
    as it is. *)
Theorem project_name_is_last_segment :
  (forall prefix last_part,
      prefix = "" \/ Str.startswith "-" prefix = true ->
      Str.rfind "-"%char last_part = None ->
      _extract_project_name (prefix ++ String "-" last_part) = last_part) /\
  (forall directory_name,
      Str.startswith "-" directory_name = true ->
      Str.rfind "-"%char (_extract_project_name directory_name) = None) /\
  (forall directory_name,
      Str.startswith "-" directory_name = false ->
      _extract_project_name directory_name = directory_name).
Proof.
  assert (Hlen : forall d, Str.startswith "-" d = true ->
            Nat.ltb 1 (List.length (Str.split "-"%char d)) = true).
  { intros d Hd. apply Nat.ltb_lt. rewrite split_length.
    destruct d as [|a d]; [discriminate|]. cbn [Str.startswith] in Hd.
    destruct (Ascii.eqb "-" a) eqn:E; [|discriminate].
    apply Ascii.eqb_eq in E. subst a. simpl. lia. }
  split; [|split].
  - intros prefix last_part Hp Hno. unfold _extract_project_name.
    assert (Hs : Str.startswith "-" (prefix ++ String "-" last_part) = true).
    { destruct Hp as [->|Hp]; [reflexivity|].
      destruct prefix as [|a prefix]; [discriminate|].
      cbn [Str.startswith append] in *.
      destruct (Ascii.eqb "-" a); [reflexivity | discriminate]. }
    rewrite Hs, (Hlen _ Hs), split_last, (split_absent _ _ Hno). reflexivity.
  - intros d Hd. unfold _extract_project_name. rewrite Hd, (Hlen _ Hd).
    pose proof (split_fields "-"%char d) as Hf.
    pose proof (split_not_nil "-"%char d) as Hne.
    rewrite Forall_forall in Hf. apply Hf.
    rewrite (app_removelast_last "" Hne) at 2.
    apply in_or_app. right. now left.
  - intros d Hd. unfold _extract_project_name. now rewrite Hd.
Qed.

(** X11. [line_count] is one more than the number of newlines of the
    content, so an empty content counts one line and a final newline
    counts an empty last line; [preview_lines] holds the first five
    lines, all of them when there are fewer; the lines joined by
    newlines are the content. *)
Theorem lines_of_content (r : FileRecord) :
  Models.line_count r = S (count Models.newline (content r)) /\
  List.length (Models.preview_lines r) = Nat.min 5 (Models.line_count r) /\
  (exists rest, Str.split Models.newline (content r)
                = Models.preview_lines r ++ rest) /\
  Models.join (String Models.newline "") (Str.split Models.newline (content r))
    = content r.
Proof.
  unfold Models.line_count, Models.preview_lines. repeat split.
  - apply split_length.
  - apply length_firstn.
  - exists (skipn 5 (Str.split Models.newline (content r))).
    symmetry. apply firstn_skipn.
  - apply join_split.
Qed.

End TextProperties.

(** ** The resolved list and the summary *)

Module ResolveProperties.
Import ScanProperties.


Lemma latest_paths (l : list FileRecord) (g : list (string * list FileRecord)) :
  (forall p vs, In (p, vs) g -> vs = versions_of p l /\ vs <> []) ->
  map file_path (flat_map (fun x => latest_version (snd x)) g) = map fst g.
Proof.
  induction g as [|[p vs] g IH]; intros Hg; [reflexivity|].
  simpl. rewrite map_app, IH by (intros; apply Hg; now right).
  destruct (Hg p vs (or_introl eq_refl)) as [Hvs Hne].
  destruct (latest_version_spec vs Hne) as (v1 & e & v2 & Hl & _ & _ & Hlv).
  rewrite Hlv. simpl. rewrite canonical_path.
  assert (He : In e (versions_of p l)).
  { rewrite <- Hvs, Hl. apply in_or_app. right. now left. }
  apply versions_of_in in He. now rewrite (proj2 He).
Qed.

Lemma resolved_paths (l : list FileRecord) :
  Permutation (map file_path (resolve_versions l))
              (map fst (group_by_path l)).
Proof.
  unfold resolve_versions.
  destruct (group_by_path_grouped l) as (_ & Hvs & _).
  rewrite <- (latest_paths l _ Hvs).
  apply Permutation_map, sort_desc_perm.
Qed.


Lemma versions_append_total (g : list (string * list FileRecord)) (r : FileRecord) :
  list_sum (map (fun x => List.length (snd x)) (versions_append g r)) =
  S (list_sum (map (fun x => List.length (snd x)) g)).
Proof.
  induction g as [|[p vs] g IH]; [reflexivity|].
  simpl. destruct (String.eqb p (file_path r)); simpl.
  - rewrite length_app. simpl. lia.
  - rewrite IH. lia.
Qed.

Lemma group_by_path_total (l : list FileRecord) :
  list_sum (map (fun x => List.length (snd x)) (group_by_path l))
    = List.length l.
Proof.
  unfold group_by_path.
  assert (H : forall l g,
            list_sum (map (fun x => List.length (snd x))
                        (fold_left versions_append l g)) =
            list_sum (map (fun x => List.length (snd x)) g) + List.length l).
  { clear l. induction l as [|r l IH]; intros g; simpl; [lia|].
    rewrite IH, versions_append_total. lia. }
  now rewrite H.
Qed.

Lemma resolve_versions_total (all_files : list FileRecord) :
  (forall r, In r all_files -> _version_count r = None) ->
  list_sum (map versions_counted (resolve_versions all_files))
    = List.length all_files.
Proof.
  intros Hnone. unfold resolve_versions.
  rewrite (Permutation_list_sum
             (Permutation_map versions_counted (sort_desc_perm _))).
  rewrite <- group_by_path_total.
  destruct (group_by_path_grouped all_files) as (_ & Hvs & _).
  revert Hvs. generalize (group_by_path all_files) as g.
  induction g as [|[p vs] g IH]; intros Hvs; [reflexivity|].
  simpl. rewrite map_app, list_sum_app, IH by (intros; apply Hvs; now right).
  f_equal.
  destruct (Hvs p vs (or_introl eq_refl)) as [Hp Hne].
  destruct (latest_version_spec vs Hne) as (v1 & e & v2 & Hl & _ & _ & Hlv).
  rewrite Hlv. simpl. rewrite Nat.add_0_r.
  assert (He : _version_count e = None).
  { apply Hnone. assert (Hin : In e (versions_of p all_files)).
    { rewrite <- Hp, Hl. apply in_or_app. right. now left. }
    now apply versions_of_in in Hin. }
  unfold canonical, versions_counted.
  destruct (Nat.ltb 1 (List.length vs)) eqn:E; [reflexivity|].
  apply Nat.ltb_ge in E. rewrite He.
  destruct vs; [congruence | simpl in *; lia].
Qed.


End ResolveProperties.

Module SummaryProperties.
Import ScanProperties ResolveProperties.

Lemma fold_step_counted (l : list FileRecord) :
  forall st k,
    fold_left summary_step l (counted st k) =
    counted (fold_left summary_step l st) k.
Proof.
  induction l as [|r l IH]; intros st k; [reflexivity|].
  simpl. rewrite <- IH. reflexivity.
Qed.

(** The summary folds over the records that [scan_project_for_files]
    collects. *)
Lemma summary_loop_spec (fromisoformat : string -> option Z) (now : nat -> Z)
    (conversation_files : list jsonl_file) :
  forall st n,
    summary_loop fromisoformat now conversation_files st n =
    (let collected := collect_files fromisoformat now conversation_files [] n in
     (counted (fold_left summary_step (fst collected) st)
        (List.length (fst collected)), snd collected)).
Proof.
  induction conversation_files as [|f files IH]; intros st n; simpl.
  - unfold counted. destruct st. simpl. now rewrite Nat.add_0_r.
  - destruct (_scan_conversation_for_files fromisoformat now f n)
      as [[ys [u|e]] n'].
    + rewrite IH. rewrite (collect_files_app _ _ files ([] ++ ys)). simpl.
      f_equal. change (mkSummaryState (st_file_count st + List.length ys)
                         (st_total_size st) (st_latest_activity st)
                         (st_file_types st))
        with (counted st (List.length ys)).
      rewrite !fold_step_counted, fold_left_app, length_app.
      unfold counted. simpl. f_equal. lia.
    + apply IH.
Qed.


Lemma fold_file_count (l : list FileRecord) :
  forall st, st_file_count (fold_left summary_step l st) = st_file_count st.
Proof.
  induction l as [|r l IH]; intros st; simpl; [reflexivity|]. now rewrite IH.
Qed.






End SummaryProperties.

Module ProjectProperties.
Import ScanProperties ResolveProperties SummaryProperties.

(** A resolved record is a scanned record, with at most the number of
    versions of its path attached. *)
Lemma resolved_from (all_files : list FileRecord) (x : FileRecord) :
  In x (resolve_versions all_files) ->
  exists e, In e all_files /\
            x = canonical e (List.length (versions_of (file_path e) all_files)).
Proof.
  intros Hx. apply resolve_versions_in in Hx. destruct Hx as (p & Hg & Hx).
  destruct (group_by_path_grouped all_files) as (_ & Hvs & _).
  destruct (Hvs _ _ Hg) as [_ Hne].
  destruct (latest_version_spec _ Hne) as (v1 & e & v2 & Hl & _ & _ & Hlv).
  rewrite Hlv in Hx. destruct Hx as [<-|[]].
  assert (He : In e (versions_of p all_files))
    by (rewrite Hl; apply in_or_app; right; now left).
  apply versions_of_in in He. destruct He as [He <-]. now exists e.
Qed.


(** X1. Every record that [scan_project_for_files] returns comes from one
    of the logs: its conversation id is the base name of that log and its
    project name the one extracted from the directory of that log.  Its
    size is the byte length of its content and its operation is Write or
    Read, never Edit or MultiEdit. *)
Theorem resolved_records_are_sized_writes_and_reads
    (fromisoformat : string -> option Z) (now : nat -> Z)
    (conversation_files : list jsonl_file) (x : FileRecord) :
  In x (scan_project_for_files fromisoformat now conversation_files) ->
  size_bytes x = String.length (content x) /\
  (operation_type x = Write \/ operation_type x = Read) /\
  exists f, In f conversation_files /\
            conversation_id x = stem f /\
            project_name x = _extract_project_name (parent_name f).
Proof.
  unfold scan_project_for_files. intros Hx.
  destruct (resolved_from _ _ Hx) as (e & He & ->). clear Hx.
  assert (Hfields : forall n,
            size_bytes (canonical e n) = size_bytes e /\
            content (canonical e n) = content e /\
            operation_type (canonical e n) = operation_type e /\
            conversation_id (canonical e n) = conversation_id e /\
            project_name (canonical e n) = project_name e).
  { intros n. unfold canonical. now destruct (Nat.ltb 1 n). }
  destruct (Hfields (List.length
              (versions_of (file_path e)
                 (fst (collect_files fromisoformat now conversation_files [] 0)))))
    as (-> & -> & -> & -> & ->).
  clear Hfields. revert He. generalize 0 as n.
  induction conversation_files as [|f files IH]; intros n He; simpl in He.
  - contradiction.
  - pose proof (scan_records_scanned_from fromisoformat now f n) as Hf.
    destruct (_scan_conversation_for_files fromisoformat now f n)
      as [[ys [u|ex]] n']; simpl in Hf.
    + rewrite collect_files_app in He. simpl in He.
      apply in_app_or in He. destruct He as [He|He].
      * rewrite Forall_forall in Hf.
        destruct (Hf e He) as (Hs & Hop & Hc & Hp & _).
        split; [exact Hs|]. split; [exact Hop|].
        exists f. split; [now left | now split].
      * destruct (IH n' He) as (Hs & Hop & f' & Hf' & Hids).
        split; [exact Hs|]. split; [exact Hop|].
        exists f'. split; [now right | exact Hids].
    + destruct (IH n' He) as (Hs & Hop & f' & Hf' & Hids).
      split; [exact Hs|]. split; [exact Hop|].
      exists f'. split; [now right | exact Hids].
Qed.

(** X8. The file count of the summary of a project is the sum of the
    version counts of the records that [scan_project_for_files] returns
    for the same logs (a record without a count standing for one
    version): the summary counts versions, the resolved list files, so
    the list is never longer than the count. *)
Theorem summary_counts_versions (fromisoformat : string -> option Z)
    (now : nat -> Z) (project_path : PurePath)
    (conversation_files : list jsonl_file) :
  let summary := get_project_summary fromisoformat now project_path
                   conversation_files in
  let resolved := scan_project_for_files fromisoformat now conversation_files in
  Models.file_count summary = list_sum (map versions_counted resolved) /\
  List.length resolved <= Models.file_count summary.
Proof.
  intros summary resolved.
  assert (Hcount : Models.file_count summary =
                   List.length
                     (fst (collect_files fromisoformat now conversation_files [] 0))).
  { unfold summary, get_project_summary. rewrite summary_loop_spec.
    cbv zeta. cbn [fst Models.file_count]. unfold counted.
    cbn [st_file_count]. now rewrite fold_file_count. }
  rewrite Hcount. unfold resolved, scan_project_for_files. split.
  - symmetry. apply resolve_versions_total. intros r Hr.
    now apply (collected_have_no_version_count _ _ _ _ _ Hr).
  - pose proof (resolved_paths
                  (fst (collect_files fromisoformat now conversation_files [] 0)))
      as Hperm.
    destruct (group_by_path_grouped
                (fst (collect_files fromisoformat now conversation_files [] 0)))
      as (Hnd & Hvs & _).
    rewrite <- (length_map file_path (resolve_versions _)).
    rewrite (Permutation_length Hperm).
    rewrite <- (length_map file_path
                  (fst (collect_files fromisoformat now conversation_files [] 0))).
    apply NoDup_incl_length; [exact Hnd|].
    intros p Hp. apply in_map_iff in Hp. destruct Hp as ([q vs] & <- & Hg).
    destruct (Hvs q vs Hg) as [-> Hne]. simpl.
    destruct (versions_of q _) as [|r vs'] eqn:E; [congruence|].
    assert (Hr : In r (versions_of q
                         (fst (collect_files fromisoformat now
                                 conversation_files [] 0))))
      by (rewrite E; now left).
    apply versions_of_in in Hr. destruct Hr as [Hr <-]. now apply in_map.
Qed.


End ProjectProperties.

(** ** Paths: parsing, parts and joining *)

Module PathFacts.
Import StrFacts.

Lemma splitroot_root (s : string) :
  fst (splitroot s) = "" \/ fst (splitroot s) = "/" \/ fst (splitroot s) = "//".
Proof.
  unfold splitroot. destruct s as [|c s]; [now left|].
  destruct (Ascii.eqb c slash); [|now left].
  destruct (Nat.eqb _ 2); simpl; auto.
Qed.

(** Every path that [Path] builds is a parsed path. *)
Lemma Path_parsed (s : string) : parsed (Path s).
Proof.
  unfold parsed, Path. pose proof (splitroot_root s) as Hr.
  destruct (splitroot s) as [r rel]. simpl in *. split; [exact Hr|].
  apply Forall_forall. intros x Hx. apply filter_In in Hx.
  destruct Hx as [Hx Hk]. split; [exact Hk|].
  pose proof (split_fields slash rel) as Hf. rewrite Forall_forall in Hf.
  now apply Hf.
Qed.

(** A segment parses to itself. *)
Lemma Path_seg (x : string) : seg_ok x -> Path x = mkPath "" [x].
Proof.
  intros [Hk Hs]. unfold Path, splitroot.
  destruct x as [|c x]; [discriminate|].
  apply rfind_none_cons in Hs. destruct Hs as [Hc Hx].
  rewrite Hc. rewrite split_absent by (apply rfind_none_cons; now split).
  simpl filter. now rewrite Hk.
Qed.

Lemma Path_root (r : string) : r = "/" \/ r = "//" -> Path r = mkPath r [].
Proof. intros [->| ->]; reflexivity. Qed.

Lemma Path_fold (l : list string) :
  Forall seg_ok l ->
  forall acc,
    fold_left (fun acc a => joinpath acc (Path a)) l acc =
    mkPath (root acc) (segs acc ++ l).
Proof.
  induction 1 as [|x l Hx Hl IH]; intros acc; simpl.
  - rewrite app_nil_r. now destruct acc.
  - rewrite IH, (Path_seg x Hx). unfold joinpath. simpl.
    now rewrite <- app_assoc.
Qed.

(** The parts give the path back. *)
Lemma Path_of_parts (p : PurePath) : parsed p -> Path_of (parts p) = p.
Proof.
  intros [Hr Hs]. unfold Path_of, parts. destruct p as [r l]. simpl in *.
  destruct Hr as [->|Hr].
  - simpl. now rewrite (Path_fold l Hs).
  - assert (E : String.eqb r "" = false) by (destruct Hr as [->| ->]; reflexivity).
    rewrite E. simpl. rewrite (Path_root r Hr). simpl.
    unfold joinpath at 2. simpl. rewrite E.
    now rewrite (Path_fold l Hs).
Qed.

(** The parts after the first [k > 0] give a relative path: the rest of
    the segments. *)
Lemma Path_of_tail (p : PurePath) (k : nat) :
  parsed p -> 0 < k ->
  Path_of (skipn k (parts p)) =
  mkPath "" (skipn (k - (if String.eqb (root p) "" then 0 else 1)) (segs p)).
Proof.
  intros [Hr Hs] Hk. unfold Path_of, parts. destruct p as [r l]. simpl in *.
  assert (Hskip : forall j, Forall seg_ok (skipn j l)).
  { intros j. apply Forall_forall. intros x Hx.
    rewrite Forall_forall in Hs. apply Hs.
    rewrite <- (firstn_skipn j l). apply in_or_app. now right. }
  destruct (String.eqb r ""); destruct k as [|k]; try lia.
  - rewrite Nat.sub_0_r. now rewrite (Path_fold _ (Hskip (S k))).
  - simpl. rewrite Nat.sub_0_r. now rewrite (Path_fold _ (Hskip k)).
Qed.

Lemma parts_length (p : PurePath) :
  List.length (parts p) =
  (if String.eqb (root p) "" then 0 else 1) + List.length (segs p).
Proof. unfold parts. now destruct (String.eqb (root p) ""). Qed.

Lemma last_skipn {A} (l : list A) (k : nat) (d : A) :
  k < List.length l -> last (skipn k l) d = last l d.
Proof.
  revert k. induction l as [|x l IH]; intros k Hk; [simpl in Hk; lia|].
  destruct k as [|k]; [reflexivity|].
  simpl skipn. rewrite IH by (simpl in Hk; lia).
  destruct l; [simpl in Hk; lia | reflexivity].
Qed.

Lemma join_ends_with_last (sep : string) (l : list string) :
  l <> [] -> exists pre, Models.join sep l = (pre ++ last l "")%string.
Proof.
  induction l as [|x l IH]; [congruence|]. intros _.
  destruct l as [|y l].
  - now exists "".
  - destruct IH as [pre Hpre]; [discriminate|].
    exists (x ++ sep ++ pre)%string.
    change (Models.join sep (x :: y :: l))
      with (x ++ sep ++ Models.join sep (y :: l))%string.
    rewrite Hpre. now rewrite !append_assoc.
Qed.

(** The string of a path with a name ends with the name. *)
Lemma str_of_ends_with_name (p : PurePath) :
  segs p <> [] -> exists pre, Models.str_of p = (pre ++ name p)%string.
Proof.
  intros Hne. unfold Models.str_of, name.
  destruct (join_ends_with_last "/" (segs p) Hne) as [pre Hpre].
  destruct (segs p) as [|x l] eqn:E; [congruence|].
  exists (root p ++ pre)%string. rewrite Hpre. now rewrite append_assoc.
Qed.

Lemma parsed_name (p : PurePath) :
  parsed p -> segs p <> [] -> seg_ok (name p).
Proof.
  intros [_ Hs] Hne. rewrite Forall_forall in Hs. apply Hs. unfold name.
  rewrite (app_removelast_last "" Hne) at 2. apply in_or_app. right. now left.
Qed.

End PathFacts.

(** ** Where recovered files go *)

Module TargetProperties.
Import StrFacts PathFacts.


Lemma find_display_indicator_bounds (ps : list string) :
  forall k i, Models.find_display_indicator k ps = Some i ->
              0 < i /\ k <= i /\ i < k + List.length ps.
Proof.
  induction ps as [|part rest IH]; intros k i;
    cbn [Models.find_display_indicator]; [discriminate|].
  destruct (Str.mem part Models.display_indicators && Nat.ltb 0 k) eqn:E.
  - intros H. inversion H; subst. apply andb_true_iff in E.
    destruct E as [_ E]. apply Nat.ltb_lt in E. simpl. lia.
  - intros H. apply IH in H. simpl. lia.
Qed.


(** X13. In flat mode a record whose path has a file name goes directly
    into the target directory under that name; records with the same
    file name therefore share one target. *)
Theorem flat_target_is_directly_in_dir (dir : PurePath) (e : FileRecord) :
  Models.file_name e <> "" ->
  exists t,
    batch_target (Some dir) false e = Some t /\
    parent t = dir /\ name t = Models.file_name e /\
    forall e', Models.file_name e' = Models.file_name e ->
               batch_target (Some dir) false e' = Some t.
Proof.
  intros Hname. unfold Models.file_name in *.
  pose proof (Path_parsed (file_path e)) as Hp.
  assert (Hne : segs (Path (file_path e)) <> []).
  { intros E. apply Hname. unfold name. now rewrite E. }
  pose proof (Path_seg _ (parsed_name _ Hp Hne)) as Hseg.
  exists (mkPath (root dir) (segs dir ++ [name (Path (file_path e))])).
  unfold batch_target. rewrite Hseg. unfold joinpath. simpl.
  split; [reflexivity|]. split; [|split].
  - unfold parent. simpl. rewrite removelast_last. now destruct dir.
  - unfold name at 1. simpl. apply last_last.
  - intros e' He'. rewrite He', Hseg. reflexivity.
Qed.

(** X14. The display path of a record ends with its file name, whichever
    rule gives it: the marker rule, the last three parts, the last two
    parts or the bare name. *)
Theorem relative_path_ends_with_file_name (r : FileRecord) :
  exists before,
    Models.relative_path r = (before ++ Models.file_name r)%string.
Proof.
  unfold Models.relative_path, Models.file_name.
  set (path := Path (file_path r)).
  pose proof (Path_parsed (file_path r)) as Hp. fold path in Hp.
  pose proof (parts_length path) as Hlen.
  assert (Htail : forall k,
            0 < k -> k < List.length (parts path) ->
            exists before,
              Models.str_of (Path_of (skipn k (parts path)))
                = (before ++ name path)%string).
  { intros k Hk Hlt. rewrite (Path_of_tail path k Hp Hk).
    set (j := k - (if String.eqb (root path) "" then 0 else 1)).
    assert (Hj : j < List.length (segs path))
      by (unfold j; destruct (String.eqb (root path) ""); lia).
    destruct (str_of_ends_with_name (mkPath "" (skipn j (segs path))))
      as [before Hb].
    { simpl. intros E. apply (f_equal (@List.length string)) in E.
      rewrite length_skipn in E. simpl in E. lia. }
    exists before. rewrite Hb. unfold name. simpl.
    now rewrite (last_skipn _ _ _ Hj). }
  destruct (Models.find_display_indicator 0 (parts path)) as [i|] eqn:E.
  - apply find_display_indicator_bounds in E. apply Htail; lia.
  - destruct (Nat.ltb 3 (List.length (parts path))) eqn:E3.
    + apply Nat.ltb_lt in E3. apply Htail; lia.
    + destruct (Nat.ltb 1 (List.length (parts path))) eqn:E1.
      * apply Nat.ltb_lt in E1. apply Nat.ltb_ge in E3.
        destruct (Nat.eq_dec (List.length (parts path)) 2) as [E2|E2].
        -- rewrite E2. simpl skipn. rewrite (Path_of_parts path Hp).
           apply str_of_ends_with_name.
           intros Es. rewrite Es in Hlen. simpl in Hlen.
           destruct (String.eqb (root path) ""); lia.
        -- apply Htail; lia.
      * now exists "".
Qed.

End TargetProperties.

(** ** Outcomes and effects of a recovery *)

Section OutcomeProperties.

Context {F : Type} `{FileSystem F}.
Variable create_backups : bool.

(** X15. With [force], a batch asks the user nothing: the number of
    questions asked is unchanged, and outcomes and final world are the
    same whatever the user would have answered. *)
Theorem forced_batch_asks_nothing (answers answers' : nat -> bool)
    (events : list FileRecord) (target_dir : option PurePath)
    (preserve_structure : bool) (w : World F) :
  asked (snd (recover_files create_backups answers events target_dir
                preserve_structure true w)) = asked w /\
  recover_files create_backups answers events target_dir
    preserve_structure true w =
  recover_files create_backups answers' events target_dir
    preserve_structure true w.
Proof.
  assert (Hone : forall e tp w0,
            recover_file create_backups answers e tp true w0 =
            recover_file create_backups answers' e tp true w0 /\
            asked (snd (recover_file create_backups answers e tp true w0))
              = asked w0).
  { intros e tp w0. unfold recover_file, confirm_gate.
    rewrite !andb_false_r.
    destruct (try_block _ _ _ _ _) as [[[ex|] bc] f']; now split. }
  revert w. induction events as [|e events IH]; intros w; simpl;
    [now split|].
  destruct (Hone e (batch_target target_dir preserve_structure e) w)
    as [Heq Hask].
  rewrite <- Heq.
  destruct (recover_file create_backups answers e _ true w) as [r w1].
  simpl in Hask. destruct (IH w1) as [Ha He]. rewrite <- He.
  destruct (recover_files create_backups answers events _ _ true w1)
    as [rs w2].
  simpl in *. split; [congruence | reflexivity].
Qed.

(** X16. Every outcome of a batch is consistent: it carries an error
    message exactly when it is not a success, and it reports a backup
    only for a target that existed, with backups enabled. *)
Theorem outcomes_are_consistent (answers : nat -> bool)
    (events : list FileRecord) (target_dir : option PurePath)
    (preserve_structure force : bool) (w : World F) :
  Forall (fun r =>
            (success r = true <-> error_message r = None) /\
            (backup_created r = true ->
             was_existing r = true /\ create_backups = true))
    (fst (recover_files create_backups answers events target_dir
            preserve_structure force w)).
Proof.
  assert (Hone : forall e tp w0,
            let r := fst (recover_file create_backups answers e tp force w0) in
            (success r = true <-> error_message r = None) /\
            (backup_created r = true ->
             was_existing r = true /\ create_backups = true)).
  { intros e tp w0. unfold recover_file, try_block, backup_step.
    destruct create_backups eqn:Hcb;
      repeat match goal with
             | |- context [confirm_gate ?a ?b ?c ?d] =>
                 destruct (confirm_gate a b c d) as [[|] ?]
             | |- context [mkdir_parents ?a ?b] =>
                 destruct (mkdir_parents a b) as [[?|] ?]
             | |- context [path_exists ?a ?b] =>
                 destruct (path_exists a b)
             | |- context [with_suffix ?a ?b] =>
                 destruct (with_suffix a b)
             | |- context [copy2 ?a ?b ?c] =>
                 destruct (copy2 a b c) as [[?|] ?]
             | |- context [write_text ?a ?b ?c] =>
                 destruct (write_text a b c) as [[?|] ?]
             | _ => progress cbn beta iota zeta delta [andb negb]
             end; simpl;
      (split; [split; congruence | intros; try discriminate; auto]). }
  revert w. induction events as [|e events IH]; intros w; simpl;
    [constructor|].
  pose proof (Hone e (batch_target target_dir preserve_structure e) w) as He.
  destruct (recover_file create_backups answers e _ force w) as [r w1].
  specialize (IH w1).
  destruct (recover_files create_backups answers events _ _ force w1)
    as [rs w2].
  simpl in *. now constructor.
Qed.

(** X17. The preview names, record by record, the targets that the
    recovery then reports, whatever the state of the disk, the answers of
    the user and [force]. *)
Theorem preview_names_recovery_targets (answers : nat -> bool)
    (events : list FileRecord) (target_dir : option PurePath)
    (preserve_structure force : bool) (w w' : World F) :
  map preview_target
    (preview_lines
       (fst (preview_recovery events target_dir preserve_structure w))) =
  map target_path
    (fst (recover_files create_backups answers events target_dir
            preserve_structure force w')) /\
  total_files (fst (preview_recovery events target_dir preserve_structure w))
    = List.length
        (fst (recover_files create_backups answers events target_dir
                preserve_structure force w')).
Proof.
  unfold preview_recovery. rewrite preview_loop_spec. simpl. split.
  - rewrite recover_files_targets, map_map. reflexivity.
  - rewrite <- (length_map file_record), recover_files_records. reflexivity.
Qed.

End OutcomeProperties.

(** ** A recovery on the in-memory disk *)

Module DiskProperties.
Import MemFS MemFSFacts BackupProperties.

Lemma put_file_result (p : PurePath) (data : string) (f f' : t) :
  put_file p data f = (None, f') ->
  f' = update f p (File data) /\ segs p <> [].
Proof.
  unfold put_file. intros E.
  assert (Hne : segs p <> []).
  { intros Hs. unfold lookup in E at 1. rewrite Hs in E. discriminate. }
  split; [|exact Hne].
  destruct (lookup f p) as [[d|]|]; try discriminate;
    destruct (lookup f (parent p)) as [[d'|]|]; try discriminate;
    now inversion E.
Qed.

Lemma put_file_frame (p : PurePath) (data : string) (f f' : t)
    (o : option exn) :
  put_file p data f = (o, f') ->
  forall q, q <> p -> lookup f' q = lookup f q.
Proof.
  unfold put_file. intros E q Hq.
  destruct (lookup f p) as [[d|]|];
    destruct (lookup f (parent p)) as [[d'|]|];
    inversion E; subst; try reflexivity; now apply lookup_update_other.
Qed.

Lemma copy_frame (src dst : PurePath) (f f' : t) (o : option exn) :
  copy src dst f = (o, f') ->
  forall q, q <> dst -> q <> joinpath dst (Path (name src)) ->
            lookup f' q = lookup f q.
Proof.
  unfold copy. intros E q Hq1 Hq2.
  destruct (lookup f src) as [[data|]|]; try (inversion E; subst; reflexivity).
  destruct (lookup f dst) as [[d|]|];
    apply (put_file_frame _ _ _ _ _ E); assumption.
Qed.

(** [mkdir] keeps every entry that is there. *)
Lemma mkdir_walk_keeps (r : string) (todo : list string) :
  forall done f f' o,
    mkdir_walk r done todo f = (o, f') ->
    forall q n, lookup f q = Some n -> lookup f' q = Some n.
Proof.
  induction todo as [|s todo IH]; intros done f f' o E q n Hq; simpl in E.
  - inversion E; subst. exact Hq.
  - destruct (lookup f (mkPath r (done ++ [s]))) as [[d|]|] eqn:Hl.
    + inversion E; subst. exact Hq.
    + eapply IH; eauto.
    + eapply IH; [exact E|].
      rewrite lookup_update_other; [exact Hq|].
      intros ->. congruence.
Qed.

Lemma was_existing_is_exists (create_backups : bool) (answers : nat -> bool)
    (e : FileRecord) (tp : option PurePath) (force : bool) (w : World t) :
  was_existing (fst (recover_file create_backups answers e tp force w)) =
  exists_ (final_target e tp) (fs w).
Proof.
  unfold recover_file, confirm_gate, confirm_ask. fold (final_target e tp).
  change (path_exists (final_target e tp) (fs w))
    with (exists_ (final_target e tp) (fs w)).
  destruct (exists_ (final_target e tp) (fs w)) eqn:Hex; simpl andb;
    [destruct (negb force); [destruct (answers (asked w))|]|];
    cbn beta iota zeta delta [negb];
    repeat match goal with
           | |- context [try_block ?a ?b ?c ?d ?f] =>
               destruct (try_block a b c d f) as [[[?|] ?] ?]
           end; reflexivity.
Qed.

(** X18. A recovery that reports a success has left the content of the
    record at the target it reports, as a regular file: it was new, it
    was overwritten, with or without a backup, with or without
    [force].  Any recovery to the same target that follows finds it
    there and reports [was_existing]. *)
Theorem recovered_content_is_on_disk (create_backups : bool)
    (answers : nat -> bool) (e : FileRecord) (tp : option PurePath)
    (force : bool) (w : World t) :
  success (fst (recover_file create_backups answers e tp force w)) = true ->
  let r := fst (recover_file create_backups answers e tp force w) in
  let w' := snd (recover_file create_backups answers e tp force w) in
  lookup (fs w') (target_path r) = Some (File (content e)) /\
  forall create_backups' answers' e' force',
    was_existing
      (fst (recover_file create_backups' answers' e' (Some (target_path r))
              force' w')) = true.
Proof.
  intros Hs r w'.
  assert (Hon : lookup (fs w') (target_path r) = Some (File (content e))).
  { unfold r, w'. revert Hs.
    unfold recover_file. fold (final_target e tp).
    destruct (confirm_gate answers _ force w) as [[|] w1]; [discriminate|].
    unfold try_block.
    destruct (mkdir_parents _ _) as [[ex|] f2]; [discriminate|].
    destruct (backup_step _ _ _ _) as [[[ex|] bc] f3]; [discriminate|].
    change (write_text (final_target e tp) (content e) f3)
      with (put_file (final_target e tp) (content e) f3).
    destruct (put_file (final_target e tp) (content e) f3) as [[ex|] f4] eqn:E;
      [discriminate|].
    intros _. simpl. apply put_file_result in E. destruct E as [-> Hne].
    now apply lookup_update_same. }
  split; [exact Hon|].
  intros create_backups' answers' e' force'.
  rewrite was_existing_is_exists. unfold final_target, exists_.
  now rewrite Hon.
Qed.

(** X19. A recovery changes no entry of the disk other than the target
    and, with backups, the place of the backup (the target path extended
    by [.backup], or the file of the same name inside it when that is a
    directory): every other entry that was there is there unchanged,
    whether the recovery succeeds, fails or is declined. *)
Theorem recovery_keeps_other_entries (create_backups : bool)
    (answers : nat -> bool) (e : FileRecord) (tp : option PurePath)
    (force : bool) (w : World t) (q : PurePath) (n : node) :
  lookup (fs w) q = Some n ->
  q <> final_target e tp ->
  (create_backups = true ->
   q <> add_ext (final_target e tp) ".backup" /\
   q <> joinpath (add_ext (final_target e tp) ".backup")
          (Path (name (final_target e tp)))) ->
  lookup (fs (snd (recover_file create_backups answers e tp force w))) q
    = Some n.
Proof.
  intros Hq Hqt Hqb. unfold recover_file. fold (final_target e tp).
  set (target := final_target e tp) in *.
  assert (Hgate : fs (snd (confirm_gate answers (path_exists target (fs w))
                             force w)) = fs w).
  { unfold confirm_gate, confirm_ask.
    now destruct (path_exists target (fs w) && negb force). }
  destruct (confirm_gate answers _ force w) as [[|] w1]; simpl in Hgate.
  - simpl. now rewrite Hgate.
  - rewrite <- Hgate in Hq. clear Hgate. unfold try_block.
    change (mkdir_parents (parent target) (fs w1))
      with (mkdir_walk (root (parent target)) [] (segs (parent target)) (fs w1)).
    destruct (mkdir_walk _ _ _ (fs w1)) as [o2 f2] eqn:Emk.
    pose proof (mkdir_walk_keeps _ _ _ _ _ _ Emk q n Hq) as Hq2.
    destruct o2 as [ex|]; [exact Hq2|].
    assert (Hbk : forall o bc f3,
              backup_step create_backups target (path_exists target (fs w)) f2
                = (o, bc, f3) ->
              lookup f3 q = Some n).
    { unfold backup_step. intros o bc f3 E.
      destruct (path_exists target (fs w) && create_backups) eqn:Eb.
      - apply andb_true_iff in Eb. destruct Eb as [_ Ecb].
        destruct (Hqb Ecb) as [Hq3 Hq4].
        destruct (with_suffix target _) as [bp|ex] eqn:Ews.
        + assert (Hbp : bp = add_ext target ".backup").
          { destruct (String.eqb (name target) "") eqn:En.
            - unfold with_suffix in Ews. rewrite En in Ews. discriminate.
            - apply String.eqb_neq in En.
              rewrite (with_suffix_appends target ".backup" En) in Ews.
              now inversion Ews. }
          subst bp.
          change (copy2 target (add_ext target ".backup") f2)
            with (copy target (add_ext target ".backup") f2) in E.
          destruct (copy target (add_ext target ".backup") f2)
            as [oc fc] eqn:Ec.
          rewrite <- Hq2. 
          assert (lookup fc q = lookup f2 q)
            by (apply (copy_frame _ _ _ _ _ Ec); assumption).
          destruct oc; inversion E; subst; assumption.
        + inversion E; subst. exact Hq2.
      - inversion E; subst. exact Hq2. }
    destruct (backup_step _ _ _ f2) as [[o3 bc] f3] eqn:Ebk.
    pose proof (Hbk _ _ _ eq_refl) as Hq3.
    destruct o3 as [ex|]; [exact Hq3|].
    change (write_text target (content e) f3)
      with (put_file target (content e) f3).
    destruct (put_file target (content e) f3) as [o4 f4] eqn:Ew.
    pose proof (put_file_frame _ _ _ _ _ Ew q Hqt) as Hq4.
    destruct o4; simpl; congruence.
Qed.

End DiskProperties.

(** ** The further properties at concrete inputs *)

Module MoreWitnesses.
Import MemFS.

Lemma resolved_records_witness :
  In Example.resolved
     (scan_project_for_files Example.fromisoformat (Example.clock 0)
        [Example.log]) /\
  size_bytes Example.resolved = String.length (content Example.resolved) /\
  (operation_type Example.resolved = Write \/
   operation_type Example.resolved = Read) /\
  exists f, In f [Example.log] /\
            conversation_id Example.resolved = stem f /\
            project_name Example.resolved
              = _extract_project_name (parent_name f).
Proof.
  split; [left; reflexivity|].
  exact (ProjectProperties.resolved_records_are_sized_writes_and_reads
           Example.fromisoformat (Example.clock 0) [Example.log]
           Example.resolved (or_introl eq_refl)).
Defined.


Lemma parse_timestamp_witness :
  Str.rfind "Z"%char "2024-05-01T10:00:00" = None /\
  _parse_timestamp Example.fromisoformat (Example.clock 0)
    (JStr "2024-05-01T10:00:00Z") 0 = ([], Ret 1000%Z, 0).
Proof.
  split; [reflexivity|].
  exact (TextProperties.parse_timestamp_trailing_z Example.fromisoformat
           (Example.clock 0) "2024-05-01T10:00:00" 0 eq_refl).
Defined.

Lemma project_name_witness :
  _extract_project_name "-Users-rudy-projects-myproject" = "myproject" /\
  Str.rfind "-"%char (_extract_project_name "-Users-rudy-my-project") = None /\
  _extract_project_name "scratch-pad" = "scratch-pad".
Proof.
  destruct TextProperties.project_name_is_last_segment as (Hlast & Hfree & Hsame).
  split; [|split].
  - exact (Hlast "-Users-rudy-projects" "myproject" (or_intror eq_refl) eq_refl).
  - exact (Hfree "-Users-rudy-my-project" eq_refl).
  - exact (Hsame "scratch-pad" eq_refl).
Defined.

Lemma non_object_line_witness :
  Py.isinstance_dict (JList []) = false /\
  exists ys e n',
    _scan_conversation_for_files Example.fromisoformat (Example.clock 0)
      Example.log_with_list_line 0 = (ys, Raise e, n') /\
    forall rest all_files,
      collect_files Example.fromisoformat (Example.clock 0)
        (Example.log_with_list_line :: rest) all_files 0
      = collect_files Example.fromisoformat (Example.clock 0) rest all_files n'.
Proof.
  split; [reflexivity|].
  exact (ScanProperties.non_object_line_drops_the_file Example.fromisoformat
           (Example.clock 0) "-a-b" "c0ffee" [Example.written]
           [Example.read_back] (JList []) 0 eq_refl).
Defined.

Lemma flat_target_witness :
  Models.file_name Example.rec_c <> "" /\
  exists t,
    batch_target (Some Example.out) false Example.rec_c = Some t /\
    parent t = Example.out /\ name t = Models.file_name Example.rec_c /\
    forall e', Models.file_name e' = Models.file_name Example.rec_c ->
               batch_target (Some Example.out) false e' = Some t.
Proof.
  assert (H : Models.file_name Example.rec_c <> "") by discriminate.
  split; [exact H|].
  exact (TargetProperties.flat_target_is_directly_in_dir Example.out
           Example.rec_c H).
Defined.

Lemma recovered_content_witness :
  let run := recover_file true Example.yes Example.stray
               (Some (Path "/out/x.py")) false (mkWorld Example.disk_flat 0) in
  success (fst run) = true /\
  lookup (fs (snd run)) (Path "/out/x.py") = Some (File "new").
Proof.
  cbv zeta. split; [reflexivity|].
  exact (proj1 (DiskProperties.recovered_content_is_on_disk true Example.yes
                  Example.stray (Some (Path "/out/x.py")) false
                  (mkWorld Example.disk_flat 0) eq_refl)).
Defined.

Lemma recovery_keeps_witness :
  lookup Example.disk_flat (Path "/out") = Some Dir /\
  lookup (fs (snd (recover_file true Example.yes Example.stray
                     (Some (Path "/out/x.py")) false
                     (mkWorld Example.disk_flat 0)))) (Path "/out")
    = Some Dir.
Proof.
  split; [reflexivity|].
  apply (DiskProperties.recovery_keeps_other_entries true Example.yes
           Example.stray (Some (Path "/out/x.py")) false
           (mkWorld Example.disk_flat 0) (Path "/out") Dir).
  - reflexivity.
  - intros E. cbv in E. discriminate.
  - intros _. split; intros E; cbv in E; discriminate.
Defined.

End MoreWitnesses.
